(** * Heat pump dashboard: the threshold tables of [app.py] and the city
      preprocessing of [process-data.py]

    The dashboard fetches daily minimum temperatures, tabulates for every
    integer temperature of a slider range how many days lie strictly below
    it, and forecasts with a black-box additive model once at least 365 rows
    are there.  This development embeds the two table renderers, the forecast
    gate and the preprocessing script, and states their properties. *)

From Stdlib Require Import ZArith List Bool String Ascii Lia Permutation.
From Stdlib Require Import Floats.SpecFloat.
Import ListNotations.
Local Open Scope Z_scope.

(** ** IEEE-754 binary64, on the Standard Library's [spec_float]

    The weather column holds float32 values and the forecast column float64
    values; every float32 value is a binary64 value, so one format serves
    both columns. *)
Module Float64.

Definition prec : Z := 53.
Definition emax : Z := 1024.

Definition float := spec_float.

Definition nan : float := S754_nan.

(** A Python [int] met by a float operand is converted to the float
    format, rounding to nearest even. *)
Definition of_int (n : Z) : float := binary_normalize prec emax n 0 false.

Definition ltb (x y : float) : bool := SFltb x y.
Definition eqb (x y : float) : bool := SFeqb x y.
Definition mul (x y : float) : float := SFmul prec emax x y.
Definition div (x y : float) : float := SFdiv prec emax x y.

(** [numpy.rint]: the nearest integral value, ties to even; an integral
    value, a zero, an infinity and NaN are returned as they are. *)
Definition rint (x : float) : float :=
  match x with
  | S754_finite s m e =>
      if 0 <=? e then x
      else
        let '(mrs, _) := shr (shr_record_of_loc (Zpos m) loc_Exact) e (- e) in
        let n := round_nearest_even (shr_m mrs) (loc_of_shr_record mrs) in
        binary_normalize prec emax (cond_Zopp s n) 0 s
  | _ => x
  end.

(** [numpy.round(x, decimals)] for [decimals > 0]: scale by the power of
    ten, [rint], scale back.  [Series.round] hands its values to it. *)
Definition round (x : float) (decimals : Z) : float :=
  let f := of_int (10 ^ decimals) in
  div (rint (mul x f)) f.

End Float64.

(** ** The Python values and control the two scripts use *)
Module Py.

Inductive exn : Type :=
| ZeroDivisionError
| SilentException.       (* what shiny's [req] raises on a falsy value *)

Inductive result (A : Type) : Type :=
| Ok (a : A)
| Raise (e : exn).
Arguments Ok {A} a.
Arguments Raise {A} e.

Definition bind {A B} (r : result A) (k : A -> result B) : result B :=
  match r with
  | Ok a => k a
  | Raise e => Raise e
  end.

(** [range(start, stop)] *)
Definition range (start stop : Z) : list Z :=
  map (fun i => start + Z.of_nat i) (seq 0 (Z.to_nat (stop - start))).

(** [a / b] on two Python ints below [2^53]: both are converted exactly and
    divided as doubles; a zero divisor raises. *)
Definition int_truediv (a b : Z) : result Float64.float :=
  if b =? 0 then Raise ZeroDivisionError
  else Ok (Float64.div (Float64.of_int a) (Float64.of_int b)).

(** [column < temp], elementwise, for a float column and a Python int: the
    int is converted to the float format and the two are compared there.
    The [y] column holds float32 values and the forecast columns float64
    values; a threshold up to [2^24] in magnitude, as every slider value is,
    converts exactly in both formats. *)
Definition lt_int (x : Float64.float) (temp : Z) : bool :=
  Float64.ltb x (Float64.of_int temp).

End Py.

Import Py.

Notation "x <- c1 ;; c2" := (Py.bind c1 (fun x => c2))
  (at level 61, c1 at next level, right associativity).

(** ** [app.py]: the server functions behind the two tables and the forecast *)
Module App.

Import Float64.

(** One entry of the [ds] column: seconds since the epoch, and whether the
    value still carries the UTC zone [get_weather] gives it. *)
Record timestamp : Type := { seconds : Z; tz_aware : bool }.

(** One row of the frame [get_weather] returns, with the [cold] column
    that [plot_weather] adds to that same frame. *)
Record weather_row : Type := { ds : timestamp; y : float; cold : option Z }.

(** One row of the frame [Prophet.predict] returns (the columns used). *)
Record forecast_row : Type :=
  { f_ds : timestamp; yhat : float; yhat_lower : float; yhat_upper : float }.

(** One row of the rendered table: the columns
    ["Temp"], ["Days Below"], ["Proportion Below"]. *)
Record table_row : Type :=
  { Temp : Z; Days_Below : Z; Proportion_Below : float }.

Inductive growth : Type := flat | linear.
Inductive unit_system : Type := fahrenheit | celsius.

Record inputs : Type :=
  { temp_range : Z * Z;
    temp : option Z;
    units : unit_system;
    forecast_years : Z;
    forecast_trend : growth }.

(** A fitted model: the trend it was created with and the history it saw. *)
Record prophet : Type := { m_growth : growth; m_history : list weather_row }.

(** What a server function can read and change: the inputs, the frame that
    the cached [get_weather()] hands to every caller (one shared object),
    and the histories [Prophet.fit] has been run on so far. *)
Record session : Type :=
  { input : inputs;
    weather : list weather_row;
    fitted : list (list weather_row) }.

(** [df.shape[0]] *)
Definition shape0 {R : Type} (df : list R) : Z := Z.of_nat (List.length df).

(** Server functions: a result or an exception, and the session after. *)
Definition M (A : Type) : Type := session -> result A * session.

Definition ret {A} (a : A) : M A := fun s => (Ok a, s).
Definition raise {A} (e : exn) : M A := fun s => (Raise e, s).
Definition mbind {A B} (c : M A) (k : A -> M B) : M B :=
  fun s => match c s with
           | (Ok a, s') => k a s'
           | (Raise e, s') => (Raise e, s')
           end.
Definition lift {A} (r : result A) : M A := fun s => (r, s).

Notation "x <~ c1 ;; c2" := (mbind c1 (fun x => c2))
  (at level 61, c1 at next level, right associativity).
Notation "c1 ;;; c2" := (mbind c1 (fun _ => c2))
  (at level 61, right associativity).

(** shiny's [req(cond)] *)
Definition req (cond : bool) : M unit :=
  if cond then ret tt else raise SilentException.

Definition get_weather : M (list weather_row) := fun s => (Ok (weather s), s).
Definition get_input : M inputs := fun s => (Ok (input s), s).

(** An in-place change of the frame [get_weather()] returned. *)
Definition set_weather (df : list weather_row) : M unit :=
  fun s => (Ok tt, {| input := input s; weather := df; fitted := fitted s |}).

(** [Prophet.fit(df)], recorded. *)
Definition log_fit (df : list weather_row) : M unit :=
  fun s => (Ok tt, {| input := input s; weather := weather s;
                      fitted := df :: fitted s |}).

(** [new_df.sort_values(by="Temp", ascending=False)], as a stable
    insertion sort on the key. *)
Fixpoint insert_desc (r : table_row) (l : list table_row) : list table_row :=
  match l with
  | [] => [r]
  | h :: t => if Temp h <=? Temp r then r :: l else h :: insert_desc r t
  end.

Definition sort_values_Temp_desc (l : list table_row) : list table_row :=
  fold_right insert_desc [] l.

(** [new_df["Proportion Below"] = new_df["Proportion Below"].round(d)] *)
Definition round_Proportion_Below (d : Z) (l : list table_row) : list table_row :=
  map (fun r => {| Temp := Temp r; Days_Below := Days_Below r;
                   Proportion_Below := round (Proportion_Below r) d |}) l.

(** The [for temp in range(min_temp, max_temp)] loop of [table_weather],
    appending to [data]. *)
Fixpoint weather_loop (df : list weather_row) (temps : list Z)
    (data : list table_row) : result (list table_row) :=
  match temps with
  | [] => Ok data
  | temp :: rest =>
      let days_below := shape0 (filter (fun r => lt_int (y r) temp) df) in
      proportion_below <- int_truediv days_below (shape0 df) ;;
      weather_loop df rest
        (data ++ [{| Temp := temp; Days_Below := days_below;
                     Proportion_Below := proportion_below |}])
  end.

Definition table_weather : M (list table_row) :=
  df <~ get_weather ;;
  i <~ get_input ;;
  let min_temp := fst (temp_range i) in
  let max_temp := snd (temp_range i) + 1 in
  data <~ lift (weather_loop df (range min_temp max_temp) []) ;;
  let new_df := sort_values_Temp_desc data in
  let new_df := round_Proportion_Below 3 new_df in
  ret new_df.

(** [plot_weather], as far as the session sees it: it writes the [cold]
    column into the shared frame; the plot itself is the plotting
    library's. *)
Definition plot_weather : M unit :=
  i <~ get_input ;;
  req (match temp i with Some _ => true | None => false end) ;;;
  df <~ get_weather ;;
  let t := match temp i with Some t => t | None => 0 end in
  set_weather
    (map (fun r => {| ds := ds r; y := y r;
                      cold := Some (if lt_int (y r) t then 1 else 0) |}) df).

Section Forecast.

(** [m.predict(m.make_future_dataframe(periods, include_history=False))]
    after [m.fit(df)]: the forecasting library, a black box. *)
Variable predict : prophet -> Z -> list forecast_row.

Definition forecast : M (prophet * list forecast_row) :=
  df <~ get_weather ;;
  let df := map (fun r => {| ds := {| seconds := seconds (ds r);
                                      tz_aware := false |};
                             y := y r; cold := cold r |}) df in
  set_weather df ;;;
  req (shape0 df >? 364) ;;;
  i <~ get_input ;;
  let m := {| m_growth := forecast_trend i; m_history := df |} in
  log_fit df ;;;
  let df := predict m (forecast_years i * 365) in
  ret (m, df).

Definition plot_forecast : M unit :=
  r <~ forecast ;;
  ret tt.

(** The loop of [table_forecast], on the [yhat_lower] column. *)
Fixpoint forecast_loop (df : list forecast_row) (temps : list Z)
    (data : list table_row) : result (list table_row) :=
  match temps with
  | [] => Ok data
  | temp :: rest =>
      let days_below :=
        shape0 (filter (fun r => lt_int (yhat_lower r) temp) df) in
      proportion_below <- int_truediv days_below (shape0 df) ;;
      forecast_loop df rest
        (data ++ [{| Temp := temp; Days_Below := days_below;
                     Proportion_Below := proportion_below |}])
  end.

Definition table_forecast : M (list table_row) :=
  r <~ forecast ;;
  let df := snd r in
  i <~ get_input ;;
  let min_temp := fst (temp_range i) in
  let max_temp := snd (temp_range i) + 1 in
  data <~ lift (forecast_loop df (range min_temp max_temp) []) ;;
  let new_df := sort_values_Temp_desc data in
  let new_df := round_Proportion_Below 3 new_df in
  ret new_df.

End Forecast.

End App.

(** ** [process-data.py]: from the raw city list to the lookup table *)
Module ProcessData.

Import Float64.

(** A value in a frame read from a CSV file: a blank field, text, an
    integer or a decimal number. *)
Inductive cell : Type :=
| Missing
| Str (s : string)
| Int (n : Z)
| Flt (f : float).

(** A frame: its columns in order, each a name and the values by row. *)
Definition frame : Type := list (string * list cell).

Inductive error : Type :=
| KeyError (k : string)
| TypeError.

Definition res (A : Type) : Type := sum error A.

Definition rbind {A B} (r : res A) (k : A -> res B) : res B :=
  match r with
  | inl e => inl e
  | inr a => k a
  end.

Notation "x <-- c1 ;; c2" := (rbind c1 (fun x => c2))
  (at level 61, c1 at next level, right associativity).

Fixpoint traverse {A B} (f : A -> res B) (l : list A) : res (list B) :=
  match l with
  | [] => inr []
  | a :: t => b <-- f a ;; bs <-- traverse f t ;; inr (b :: bs)
  end.

(** [df[name]] *)
Fixpoint column (df : frame) (name : string) : res (list cell) :=
  match df with
  | [] => inl (KeyError name)
  | (n, c) :: rest => if String.eqb n name then inr c else column rest name
  end.

(** [df[[name1, ..., namek]]] *)
Definition select (df : frame) (names : list string) : res frame :=
  traverse (fun n => c <-- column df n ;; inr (n, c)) names.

(** [col > k] for a Python int [k]: a blank compares false, text with a
    number is a type error. *)
Definition gt_int (k : Z) (c : cell) : res bool :=
  match c with
  | Missing => inr false
  | Int n => inr (k <? n)
  | Flt f => inr (ltb (of_int k) f)
  | Str _ => inl TypeError
  end.

(** Keep the positions where the mask is true. *)
Fixpoint keep {A} (mask : list bool) (l : list A) : list A :=
  match mask, l with
  | b :: m, a :: t => if b then a :: keep m t else keep m t
  | _, _ => []
  end.

(** [df[mask]] *)
Definition where_ (df : frame) (mask : list bool) : frame :=
  map (fun nc => (fst nc, keep mask (snd nc))) df.

(** [a + b] on two values of text columns: a blank stays a blank. *)
Definition add (a b : cell) : res cell :=
  match a, b with
  | Str x, Str y => inr (Str (x ++ y))
  | Missing, (Missing | Str _) | Str _, Missing => inr Missing
  | _, _ => inl TypeError
  end.

(** [col + text] *)
Definition add_scalar (col : list cell) (s : string) : res (list cell) :=
  traverse (fun a => add a (Str s)) col.

(** [col1 + col2], row by row *)
Fixpoint add_columns (c1 c2 : list cell) : res (list cell) :=
  match c1, c2 with
  | a :: t1, b :: t2 =>
      x <-- add a b ;; xs <-- add_columns t1 t2 ;; inr (x :: xs)
  | _, _ => inr []
  end.

(** [df[name] = col]: replace the column of that name, or append one. *)
Fixpoint assign (df : frame) (name : string) (col : list cell) : frame :=
  match df with
  | [] => [(name, col)]
  | (n, c) :: rest =>
      if String.eqb n name then (n, col) :: rest
      else (n, c) :: assign rest name col
  end.

(** The script, from the frame [read_csv] gives to the frame [to_csv]
    writes (without the index). *)
Definition process_data (df : frame) : res frame :=
  df <-- select df ["city"; "county_name"; "state_name";
                    "population"; "lat"; "lng"]%string ;;
  population <-- column df "population" ;;
  mask <-- traverse (gt_int 9999) population ;;
  let df := where_ df mask in
  city <-- column df "city" ;;
  c <-- add_scalar city ", " ;;
  state_name <-- column df "state_name" ;;
  city_state <-- add_columns c state_name ;;
  let df := assign df "city_state" city_state in
  df <-- select df ["city_state"; "lat"; "lng"]%string ;;
  inr df.

End ProcessData.

(** ** Notions the statements below are written with *)
Module Spec.

Import Float64 App.

(** The rows of a column-bearing frame that lie strictly below [t]. *)
Definition count_below {R : Type} (col : R -> float) (df : list R) (t : Z) : Z :=
  Z.of_nat (List.length (filter (fun r => lt_int (col r) t) df)).

Definition is_nan (x : float) : bool :=
  match x with
  | S754_nan => true
  | _ => false
  end.

(** Where a right shift by [k] bits left the original [m0]: the kept part
    [m], and where the dropped part lies in its interval. *)
Definition located (m0 k m : Z) (l : location) : Prop :=
  match l with
  | loc_Exact => m0 = m * 2 ^ k
  | loc_Inexact Lt => m * 2 ^ k < m0 /\ 2 * m0 < (2 * m + 1) * 2 ^ k
  | loc_Inexact Eq => 2 * m0 = (2 * m + 1) * 2 ^ k
  | loc_Inexact Gt => (2 * m + 1) * 2 ^ k < 2 * m0 /\ m0 < (m + 1) * 2 ^ k
  end.

(** The float of sign [s], 53-bit mantissa [Mt] and exponent [E], or the
    infinity once the exponent is out of range. *)
Definition packed (s : bool) (Mt E : Z) : float :=
  if E <=? 971 then S754_finite s (Z.to_pos Mt) E else S754_infinity s.

(** The same after a rounding that may have carried into a 54th bit. *)
Definition renormalized (s : bool) (q e : Z) : float :=
  if q =? 2 ^ 53 then packed s (2 ^ 52) (e + 1) else packed s q e.

(** [R] is [p] rounded to 53 significant bits, ties to even. *)
Definition rounded (p : positive) (R : Z) : Prop :=
  let n := Z.max 0 (Zpos (digits2_pos p) - 53) in
  exists m l, located (Zpos p) n m l /\ R = round_nearest_even m l * 2 ^ n.

(** The row the loop appends for [temp] on a frame with at least one row. *)
Definition raw_row {R : Type} (col : R -> float) (df : list R) (temp : Z) : table_row :=
  {| Temp := temp;
     Days_Below := count_below col df temp;
     Proportion_Below := div (of_int (count_below col df temp)) (of_int (shape0 df)) |}.

(** The same row as the table shows it. *)
Definition shown_row {R : Type} (col : R -> float) (df : list R) (temp : Z) : table_row :=
  {| Temp := temp;
     Days_Below := count_below col df temp;
     Proportion_Below :=
       round (div (of_int (count_below col df temp)) (of_int (shape0 df))) 3 |}.

(** The frame after [forecast] dropped the zone of its [ds] column. *)
Definition naive (df : list weather_row) : list weather_row :=
  map (fun r => {| ds := {| seconds := seconds (ds r); tz_aware := false |};
                   y := y r; cold := cold r |}) df.

(** Each element is strictly smaller than the one before it. *)
Fixpoint strictly_descending (l : list Z) : Prop :=
  match l with
  | a :: ((b :: _) as t) => b < a /\ strictly_descending t
  | _ => True
  end.

(** A session around a series of daily minima, every slider at a value the
    page allows. *)
Definition session_of (obs : list float) (low high : Z) : session :=
  {| input := {| temp_range := (low, high); temp := Some 5;
                 units := fahrenheit; forecast_years := 1;
                 forecast_trend := flat |};
     weather := map (fun v => {| ds := {| seconds := 0; tz_aware := true |};
                                 y := v; cold := None |}) obs;
     fitted := [] |}.

(** A row of the raw city list with every field present. *)
Record raw_city : Type :=
  { rc_city : string; rc_county : string; rc_state : string;
    rc_population : Z; rc_lat : float; rc_lng : float }.

(** The cities the script keeps. *)
Definition big_enough (c : raw_city) : bool := 9999 <? rc_population c.

(** The value the script puts in the [city_state] column. *)
Definition city_state (c : raw_city) : string :=
  ((rc_city c ++ ", ") ++ rc_state c)%string.

(** [x] is a value of the binary64 format: a finite one has the mantissa
    and exponent the format gives it. *)
Definition binary64 (x : float) : bool := valid_binary prec emax x.

(** The value of [x] is strictly less than the integer [t], decided on the
    mantissa and exponent without any conversion or rounding; NaN is below
    nothing. *)
Definition below (x : float) (t : Z) : bool :=
  match x with
  | S754_finite s m e =>
      let v := if s then Zneg m else Zpos m in
      if 0 <=? e then v * 2 ^ e <? t else v <? t * 2 ^ (- e)
  | S754_zero _ => 0 <? t
  | S754_infinity s => s
  | S754_nan => false
  end.

(** The value of [x] is the integer [t]. *)
Definition equal_to (x : float) (t : Z) : bool :=
  match x with
  | S754_finite s m e =>
      let v := if s then Zneg m else Zpos m in
      if 0 <=? e then v * 2 ^ e =? t else v =? t * 2 ^ (- e)
  | S754_zero _ => t =? 0
  | _ => false
  end.

End Spec.

(** ** [app.py], the city lookup: [city_list] and [get_input_lat_lon] on the
       table the preprocessing script wrote *)
Module Cities.

Import ProcessData.

Inductive exn : Type :=
| SilentException          (* shiny's [req] on a falsy value *)
| FrameError (e : error)   (* a [KeyError] of the frame *)
| IndexError.              (* [.iloc[0]] on a column without rows *)

Definition res (A : Type) : Type := sum exn A.

Definition bind {A B} (r : res A) (k : A -> res B) : res B :=
  match r with
  | inl e => inl e
  | inr a => k a
  end.

Notation "x <== c1 ;; c2" := (bind c1 (fun x => c2))
  (at level 61, c1 at next level, right associativity).

(** [city_data[name]], inside a server function *)
Definition col (city_data : frame) (name : string) : res (list cell) :=
  match column city_data name with
  | inl e => inl (FrameError e)
  | inr c => inr c
  end.

(** [city_list = city_data["city_state"].to_list()] *)
Definition city_list (city_data : frame) : res (list cell) :=
  col city_data "city_state".

(** [cell == text], elementwise: only the same text is equal. *)
Definition eq_str (s : string) (c : cell) : bool :=
  match c with
  | Str x => String.eqb x s
  | _ => false
  end.

(** [column.iloc[0]] *)
Definition iloc0 (c : list cell) : res cell :=
  match c with
  | [] => inl IndexError
  | a :: _ => inr a
  end.

Definition get_input_lat_lon (city_data : frame) (city : string) : res (cell * cell) :=
  if (0 <? String.length city)%nat then
    names <== col city_data "city_state" ;;
    let city_df := where_ city_data (map (eq_str city) names) in
    lats <== col city_df "lat" ;;
    city_lat <== iloc0 lats ;;
    lngs <== col city_df "lng" ;;
    city_lng <== iloc0 lngs ;;
    inr (city_lat, city_lng)
  else inl SilentException.

End Cities.

(** ** [app.py], [get_weather]: from the API's daily block to the frame *)
Module Fetch.

Import Float64 App.

(** What the daily block of the response answers: [Time()], [TimeEnd()],
    [Interval()] in seconds, and [Variables(0).ValuesAsNumpy()]. *)
Record daily : Type :=
  { Time : Z; TimeEnd : Z; Interval : Z; ValuesAsNumpy : list float }.

Inductive exn : Type :=
| ValueError.   (* [DataFrame]: "All arrays must be of the same length" *)

(** [pd.date_range(start, end, freq, inclusive="left")] for a positive step:
    [start], [start + step], ... as long as it is before [end]. *)
Definition date_range_left (start stop step : Z) : list Z :=
  map (fun i => start + step * Z.of_nat i)
      (seq 0 (Z.to_nat ((stop - start + step - 1) / step))).

(** [pd.DataFrame(data={"date": ..., "temperature_2m_min": ...})], renamed
    to [ds] and [y]: the two columns row by row. *)
Fixpoint frame_of (dates : list Z) (values : list float) : list weather_row :=
  match dates, values with
  | d :: ds', v :: vs =>
      {| ds := {| seconds := d; tz_aware := true |}; y := v; cold := None |}
      :: frame_of ds' vs
  | _, _ => []
  end.

Definition get_weather (d : daily) : sum exn (list weather_row) :=
  let date := date_range_left (Time d) (TimeEnd d) (Interval d) in
  let daily_temperature_2m_min := ValuesAsNumpy d in
  if (List.length date =? List.length daily_temperature_2m_min)%nat
  then inr (frame_of date daily_temperature_2m_min)
  else inl ValueError.

End Fetch.

(** ** [app.py], the two effects that reset the sliders with the units *)
Module Sliders.

Import App.

Record slider : Type := { value : Z; smin : Z; smax : Z }.
Record range_slider : Type := { rvalue : Z * Z; rmin : Z; rmax : Z }.

Definition update_temp (u : unit_system) : slider :=
  match u with
  | celsius => {| value := -15; smin := -25; smax := 10 |}
  | _ => {| value := 5; smin := -15; smax := 50 |}
  end.

Definition update_temp_range (u : unit_system) : range_slider :=
  match u with
  | celsius => {| rvalue := (-20, -10); rmin := -30; rmax := 15 |}
  | _ => {| rvalue := (0, 15); rmin := -25; rmax := 60 |}
  end.

End Sliders.

(** ** Further notions for the statements *)
Module Notions.

Import Float64 App ProcessData.

(** The rows of [df] marked cold. *)
Definition cold_rows (df : list weather_row) : list weather_row :=
  filter (fun r => match cold r with Some 1 => true | _ => false end) df.

(** Every [ds] of the frame is without a zone. *)
Definition all_naive (df : list weather_row) : Prop :=
  forall r, In r df -> tz_aware (ds r) = false.

(** The session with another slider range. *)
Definition with_range (s : session) (r : Z * Z) : session :=
  {| input := {| temp_range := r; temp := temp (input s); units := units (input s);
                 forecast_years := forecast_years (input s);
                 forecast_trend := forecast_trend (input s) |};
     weather := weather s; fitted := fitted s |}.

(** The session around another frame. *)
Definition with_weather (s : session) (df : list weather_row) : session :=
  {| input := input s; weather := df; fitted := fitted s |}.

(** The six columns the script reads, in the order it names them. *)
Definition six : list string :=
  ["city"; "county_name"; "state_name"; "population"; "lat"; "lng"]%string.

(** The number of positions a mask keeps. *)
Definition kept (mask : list bool) : nat := List.length (filter (fun b => b) mask).

(** A population column read as decimal numbers because of blank fields. *)
Definition float_population (p : option Z) : cell :=
  match p with
  | Some n => Flt (of_int n)
  | None => Missing
  end.

Definition above_9999 (p : option Z) : bool :=
  match p with
  | Some n => 9999 <? n
  | None => false
  end.

End Notions.

Import Float64 App Spec Notions.

(** ** Binary64: comparison is transitive and the conversion of integers is
       monotone *)

Lemma digits2_pos_bounds (p : positive) :
  2 ^ (Zpos (digits2_pos p) - 1) <= Zpos p < 2 ^ Zpos (digits2_pos p).
Proof.
  induction p as [p IH|p IH|]; cbn [digits2_pos];
    [set (d := Zpos (digits2_pos p)) in *
    |set (d := Zpos (digits2_pos p)) in *
    |cbn; lia];
    rewrite Pos2Z.inj_succ; fold d;
    replace (Z.succ d - 1) with (Z.succ (d - 1)) by lia;
    rewrite !Z.pow_succ_r by lia; lia.
Qed.

Lemma digits_unique (m a b : Z) :
  2 ^ (a - 1) <= m < 2 ^ a -> 2 ^ (b - 1) <= m < 2 ^ b -> 1 <= a -> 1 <= b -> a = b.
Proof.
  intros Ha Hb H1 H2.
  destruct (Z.lt_trichotomy a b) as [H|[H|H]]; [|assumption|].
  - assert (2 ^ a <= 2 ^ (b - 1)) by (apply Z.pow_le_mono_r; lia). lia.
  - assert (2 ^ b <= 2 ^ (a - 1)) by (apply Z.pow_le_mono_r; lia). lia.
Qed.

Lemma Zdigits2_unique (m d : Z) :
  1 <= d -> 2 ^ (d - 1) <= m < 2 ^ d -> Zdigits2 m = d.
Proof.
  intros Hd Hm. assert (0 < m) by (assert (0 < 2 ^ (d - 1)) by (apply Z.pow_pos_nonneg; lia); lia).
  destruct m as [|p|p]; try lia. cbn [Zdigits2].
  apply (digits_unique (Zpos p)); try lia. apply digits2_pos_bounds.
Qed.

Lemma iter_pos_nat {A} (f : A -> A) (n : positive) (x : A) :
  iter_pos f n x = Nat.iter (Pos.to_nat n) f x.
Proof.
  revert x. induction n as [n IH|n IH|]; intros x; cbn [iter_pos].
  - rewrite !IH, Pos2Nat.inj_xI. cbn [Nat.iter Nat.mul].
    rewrite <- Nat.iter_add. rewrite Nat.add_0_r.
    change (f (Nat.iter (Pos.to_nat n + Pos.to_nat n) f x)) with (Nat.iter (S (Pos.to_nat n + Pos.to_nat n)) f x).
    rewrite Nat.iter_succ_r. reflexivity.
  - rewrite !IH, Pos2Nat.inj_xO. cbn [Nat.mul]. rewrite Nat.add_0_r, Nat.iter_add. reflexivity.
  - reflexivity.
Qed.

Lemma shr_1_located (m0 k : Z) (mrs : shr_record) :
  0 <= k -> 0 <= shr_m mrs ->
  located m0 k (shr_m mrs) (loc_of_shr_record mrs) ->
  0 <= shr_m (shr_1 mrs) /\
  located m0 (k + 1) (shr_m (shr_1 mrs)) (loc_of_shr_record (shr_1 mrs)).
Proof.
  intros Hk Hm H.
  assert (HW : 0 < 2 ^ k) by (apply Z.pow_pos_nonneg; lia).
  assert (HW1 : 2 ^ (k + 1) = 2 * 2 ^ k) by (rewrite Z.pow_add_r by lia; lia).
  destruct mrs as [m r s]. cbn [shr_m] in *.
  destruct m as [|[p|p|]|p]; try lia;
    destruct r, s; cbn [shr_1 shr_m loc_of_shr_record orb located] in *;
    rewrite HW1; set (W := 2 ^ k) in *; clearbody W;
    try rewrite Pos2Z.inj_xI in *; try rewrite Pos2Z.inj_xO in *; nia.
Qed.

Lemma shr_iter_located (m0 : Z) (n : nat) :
  0 <= m0 ->
  let mrs := Nat.iter n shr_1 (shr_record_of_loc m0 loc_Exact) in
  0 <= shr_m mrs /\ located m0 (Z.of_nat n) (shr_m mrs) (loc_of_shr_record mrs).
Proof.
  intros H0. induction n as [|n IH]; cbn zeta.
  - cbn. lia.
  - cbn [Nat.iter]. destruct IH as [IH1 IH2].
    replace (Z.of_nat (S n)) with (Z.of_nat n + 1) by lia.
    apply shr_1_located; [lia|assumption|assumption].
Qed.

Lemma SFltb_leb_trans (x a b : spec_float) :
  SFltb x a = true -> SFleb a b = true -> SFltb x b = true.
Proof.
  unfold SFltb, SFleb, SFcompare.
  destruct x as [sx|sx| |sx mx ex], a as [sa|sa| |sa ma ea], b as [sb|sb| |sb mb eb];
    try discriminate; try reflexivity;
    repeat match goal with s : bool |- _ => destruct s end;
    try discriminate; try reflexivity;
    change (Pos.compare_cont Eq) with Pos.compare;
    repeat match goal with
           | |- context [Z.compare ?u ?v] => destruct (Z.compare_spec u v)
           | |- context [Pos.compare ?u ?v] => destruct (Pos.compare_spec u v)
           end; cbn; try discriminate; try reflexivity; intros; lia.
Qed.

Lemma iter_xO_spec (p k : positive) :
  Zpos (Pos.iter xO p k) = Zpos p * 2 ^ Zpos k.
Proof.
  induction k as [|k IH] using Pos.peano_ind.
  - cbn [Pos.iter]. rewrite Pos2Z.inj_xO. change (2 ^ 1) with 2. lia.
  - rewrite Pos.iter_succ, Pos2Z.inj_xO, IH, Pos2Z.inj_succ, Z.pow_succ_r by lia. lia.
Qed.

Lemma fexp64 (e : Z) : -1021 <= e -> fexp 53 1024 e = e - 53.
Proof. intros H. unfold fexp, emin. lia. Qed.

Lemma round_aux_fits (s : bool) (mz : positive) (ez : Z) :
  2 ^ 52 <= Zpos mz < 2 ^ 53 -> -1074 <= ez ->
  binary_round_aux 53 1024 s (Zpos mz) ez loc_Exact = packed s (Zpos mz) ez.
Proof.
  intros Hm He.
  assert (Hd : Zdigits2 (Zpos mz) = 53) by (apply Zdigits2_unique; [lia|exact Hm]).
  unfold binary_round_aux, shr_fexp. rewrite Hd, fexp64 by lia.
  replace (53 + ez - 53 - ez) with 0 by lia.
  cbn [shr shr_record_of_loc shr_m loc_of_shr_record round_nearest_even].
  rewrite Hd, fexp64 by lia. replace (53 + ez - 53 - ez) with 0 by lia.
  cbn [shr shr_record_of_loc shr_m]. unfold packed. cbn [Z.to_pos].
  reflexivity.
Qed.

Lemma binary_round_small (s : bool) (p : positive) :
  Zpos (digits2_pos p) <= 53 ->
  binary_round 53 1024 s p 0
  = packed s (Zpos p * 2 ^ (53 - Zpos (digits2_pos p))) (Zpos (digits2_pos p) - 53).
Proof.
  intros Hd. pose proof (digits2_pos_bounds p) as Hb.
  set (d := Zpos (digits2_pos p)) in *.
  unfold binary_round. fold d. rewrite fexp64 by lia. unfold shl_align.
  replace (d + 0 - 53 - 0) with (d - 53) by lia.
  destruct (d - 53) as [|k|k] eqn:Hk; try lia.
  - replace (d + 0 - 53) with 0 by lia. replace (53 - d) with 0 by lia.
    rewrite Z.mul_1_r. apply round_aux_fits; [|lia].
    replace d with 53 in Hb by lia. exact Hb.
  - replace (53 - d) with (Zpos k) by lia.
    rewrite <- iter_xO_spec. replace (d + 0 - 53) with (Zneg k) by lia.
    apply round_aux_fits; [|lia].
    rewrite iter_xO_spec.
    assert (H1 : 2 ^ (d - 1) * 2 ^ Zpos k = 2 ^ 52).
    { rewrite <- Z.pow_add_r by lia. f_equal. lia. }
    assert (H2 : 2 ^ d * 2 ^ Zpos k = 2 ^ 53).
    { rewrite <- Z.pow_add_r by lia. f_equal. lia. }
    assert (0 < 2 ^ Zpos k) by (apply Z.pow_pos_nonneg; lia).
    nia.
Qed.

Lemma located_bounds (m0 k m : Z) (l : location) :
  0 <= k -> located m0 k m l -> m * 2 ^ k <= m0 < (m + 1) * 2 ^ k.
Proof.
  intros Hk H. assert (0 < 2 ^ k) by (apply Z.pow_pos_nonneg; lia).
  destruct l as [|[| |]]; cbn [located] in H; nia.
Qed.

Lemma round_nearest_even_bounds (m : Z) (l : location) :
  m <= round_nearest_even m l <= m + 1.
Proof.
  destruct l as [|[| |]]; cbn [round_nearest_even]; try lia.
  destruct (Z.even m); lia.
Qed.

Lemma binary_round_large (s : bool) (p : positive) :
  53 < Zpos (digits2_pos p) ->
  exists m l,
    2 ^ 52 <= m < 2 ^ 53 /\
    located (Zpos p) (Zpos (digits2_pos p) - 53) m l /\
    binary_round 53 1024 s p 0
    = renormalized s (round_nearest_even m l) (Zpos (digits2_pos p) - 53).
Proof.
  intros Hd. pose proof (digits2_pos_bounds p) as Hb.
  set (d := Zpos (digits2_pos p)) in *.
  unfold binary_round. fold d. rewrite fexp64 by lia. unfold shl_align.
  replace (d + 0 - 53 - 0) with (d - 53) by lia.
  destruct (d - 53) as [|k|k] eqn:Hk; try lia.
  unfold binary_round_aux, shr_fexp. cbn [Zdigits2]. fold d.
  rewrite fexp64 by lia. replace (d + 0 - 53 - 0) with (Zpos k) by lia.
  cbn [shr]. rewrite iter_pos_nat.
  pose proof (shr_iter_located (Zpos p) (Pos.to_nat k) ltac:(lia)) as Hloc.
  cbn zeta in Hloc. rewrite positive_nat_Z in Hloc.
  set (mrs := Nat.iter (Pos.to_nat k) shr_1 (shr_record_of_loc (Zpos p) loc_Exact)) in *.
  destruct Hloc as [Hm0 Hloc].
  exists (shr_m mrs), (loc_of_shr_record mrs).
  pose proof (located_bounds _ (Zpos k) _ _ (Pos2Z.is_nonneg k) Hloc) as Hlb.
  assert (HW : 0 < 2 ^ Zpos k) by (apply Z.pow_pos_nonneg; lia).
  assert (H1 : 2 ^ 52 * 2 ^ Zpos k = 2 ^ (d - 1)).
  { rewrite <- Z.pow_add_r by lia. f_equal. lia. }
  assert (H2 : 2 ^ 53 * 2 ^ Zpos k = 2 ^ d).
  { rewrite <- Z.pow_add_r by lia. f_equal. lia. }
  assert (Hm : 2 ^ 52 <= shr_m mrs < 2 ^ 53).
  { split.
    - apply Z.lt_succ_r, (Z.mul_lt_mono_pos_r (2 ^ Zpos k)); lia.
    - apply (Z.mul_lt_mono_pos_r (2 ^ Zpos k)); lia. }
  split; [exact Hm|]. split; [exact Hloc|].
  pose proof (round_nearest_even_bounds (shr_m mrs) (loc_of_shr_record mrs)) as Hq.
  set (q := round_nearest_even (shr_m mrs) (loc_of_shr_record mrs)) in *.
  unfold renormalized. destruct (Z.eqb_spec q (2 ^ 53)) as [Hq53|Hq53].
  - rewrite Hq53. change (Zdigits2 (2 ^ 53)) with 54.
    rewrite fexp64 by lia. replace (54 + (0 + Zpos k) - 53 - (0 + Zpos k)) with 1 by lia.
    cbn [shr iter_pos]. change (shr_1 (shr_record_of_loc (2 ^ 53) loc_Exact))
      with (Build_shr_record (2 ^ 52) false false).
    cbn [shr_m]. unfold packed. change (2 ^ 52) with (Zpos (Z.to_pos (2 ^ 52))) at 1.
    cbv iota beta. replace (0 + Zpos k + 1) with (Zpos k + 1) by lia. reflexivity.
  - assert (Hdq : Zdigits2 q = 53) by (apply Zdigits2_unique; lia).
    rewrite Hdq, fexp64 by lia.
    replace (53 + (0 + Zpos k) - 53 - (0 + Zpos k)) with 0 by lia.
    cbn [shr shr_record_of_loc shr_m]. unfold packed.
    destruct q as [|q'|q']; try lia. cbn [Z.to_pos].
    replace (0 + Zpos k) with (Zpos k) by lia. reflexivity.
Qed.

Lemma rounded_bounds (p : positive) (R : Z) :
  rounded p R ->
  2 ^ (Zpos (digits2_pos p) - 1) <= R <= 2 ^ Zpos (digits2_pos p).
Proof.
  unfold rounded. pose proof (digits2_pos_bounds p) as Hb.
  set (d := Zpos (digits2_pos p)) in *. cbn zeta.
  intros (m & l & Hloc & ->).
  pose proof (located_bounds _ (Z.max 0 (d - 53)) _ _ ltac:(lia) Hloc) as Hlb.
  pose proof (round_nearest_even_bounds m l) as Hq.
  set (q := round_nearest_even m l) in *.
  assert (HW : 0 < 2 ^ Z.max 0 (d - 53)) by (apply Z.pow_pos_nonneg; lia).
  destruct (Z.le_gt_cases d 53) as [Hd|Hd].
  - replace (Z.max 0 (d - 53)) with 0 in * by lia.
    change (2 ^ 0) with 1 in *.
    assert (m = Zpos p) by lia. subst m.
    assert (q = Zpos p).
    { destruct l as [|[| |]]; cbn [located] in Hloc; try lia.
      subst q. reflexivity. }
    lia.
  - replace (Z.max 0 (d - 53)) with (d - 53) in * by lia.
    set (W := 2 ^ (d - 53)) in *.
    assert (H1 : 2 ^ 52 * W = 2 ^ (d - 1)).
    { unfold W. rewrite <- Z.pow_add_r by lia. f_equal. lia. }
    assert (H2 : 2 ^ 53 * W = 2 ^ d).
    { unfold W. rewrite <- Z.pow_add_r by lia. f_equal. lia. }
    assert (Hm : 2 ^ 52 <= m < 2 ^ 53).
    { split.
      - apply Z.lt_succ_r, (Z.mul_lt_mono_pos_r W); lia.
      - apply (Z.mul_lt_mono_pos_r W); lia. }
    rewrite <- H1, <- H2. split; apply Z.mul_le_mono_nonneg_r; lia.
Qed.

Lemma round_same_grid (p1 p2 n m1 m2 : Z) (l1 l2 : location) :
  0 <= n -> p1 <= p2 -> located p1 n m1 l1 -> located p2 n m2 l2 ->
  round_nearest_even m1 l1 <= round_nearest_even m2 l2.
Proof.
  intros Hn Hp H1 H2.
  pose proof (located_bounds _ _ _ _ Hn H1) as B1.
  pose proof (located_bounds _ _ _ _ Hn H2) as B2.
  pose proof (round_nearest_even_bounds m1 l1) as Q1.
  pose proof (round_nearest_even_bounds m2 l2) as Q2.
  assert (HW : 0 < 2 ^ n) by (apply Z.pow_pos_nonneg; lia).
  set (W := 2 ^ n) in *. clearbody W.
  assert (Hm : m1 <= m2) by nia.
  destruct (Z.eq_dec m1 m2) as [->|Hne]; [|lia].
  destruct l1 as [|[| |]], l2 as [|[| |]];
    cbn [located round_nearest_even] in *; try destruct (Z.even m2); nia.
Qed.

Lemma rounded_mono (p1 p2 : positive) (R1 R2 : Z) :
  (p1 <= p2)%positive -> rounded p1 R1 -> rounded p2 R2 -> R1 <= R2.
Proof.
  intros Hp H1 H2.
  pose proof (rounded_bounds _ _ H1) as B1. pose proof (rounded_bounds _ _ H2) as B2.
  pose proof (digits2_pos_bounds p1) as D1. pose proof (digits2_pos_bounds p2) as D2.
  set (d1 := Zpos (digits2_pos p1)) in *. set (d2 := Zpos (digits2_pos p2)) in *.
  assert (Hd : d1 <= d2).
  { destruct (Z.le_gt_cases d1 d2) as [H|H]; [exact H|].
    assert (2 ^ d2 <= 2 ^ (d1 - 1)) by (apply Z.pow_le_mono_r; lia). lia. }
  destruct (Z.eq_dec d1 d2) as [Heq|Hne].
  - unfold rounded in H1, H2. fold d1 in H1. fold d2 in H2. cbn zeta in H1, H2.
    rewrite <- Heq in H2.
    destruct H1 as (m1 & l1 & L1 & ->). destruct H2 as (m2 & l2 & L2 & ->).
    apply Z.mul_le_mono_nonneg_r; [apply Z.pow_nonneg; lia|].
    apply (round_same_grid (Zpos p1) (Zpos p2) (Z.max 0 (d1 - 53))); try assumption; lia.
  - assert (2 ^ d1 <= 2 ^ (d2 - 1)) by (apply Z.pow_le_mono_r; lia). lia.
Qed.

Lemma binary_round_spec (s : bool) (p : positive) :
  exists E Mt R,
    binary_round 53 1024 s p 0 = packed s Mt E /\
    2 ^ 52 <= Mt < 2 ^ 53 /\ -52 <= E /\
    rounded p R /\ Mt * 2 ^ (E + 52) = 2 ^ 52 * R.
Proof.
  pose proof (digits2_pos_bounds p) as Hb.
  destruct (Z.le_gt_cases (Zpos (digits2_pos p)) 53) as [Hd|Hd].
  - rewrite binary_round_small by exact Hd.
    set (d := Zpos (digits2_pos p)) in *.
    exists (d - 53), (Zpos p * 2 ^ (53 - d)), (Zpos p).
    assert (HW : 0 < 2 ^ (53 - d)) by (apply Z.pow_pos_nonneg; lia).
    assert (H1 : 2 ^ (d - 1) * 2 ^ (53 - d) = 2 ^ 52).
    { rewrite <- Z.pow_add_r by lia. f_equal. lia. }
    assert (H2 : 2 ^ d * 2 ^ (53 - d) = 2 ^ 53).
    { rewrite <- Z.pow_add_r by lia. f_equal. lia. }
    split; [reflexivity|]. split; [nia|]. split; [lia|]. split.
    + unfold rounded. fold d. cbn zeta. replace (Z.max 0 (d - 53)) with 0 by lia.
      exists (Zpos p), loc_Exact. cbn [located round_nearest_even].
      change (2 ^ 0) with 1. lia.
    + replace (d - 53 + 52) with (d - 1) by lia.
      rewrite <- Z.mul_assoc, (Z.mul_comm (2 ^ (53 - d))), H1. lia.
  - destruct (binary_round_large s p Hd) as (m & l & Hm & Hloc & ->).
    set (d := Zpos (digits2_pos p)) in *.
    pose proof (round_nearest_even_bounds m l) as Hq.
    assert (Hr : rounded p (round_nearest_even m l * 2 ^ (d - 53))).
    { unfold rounded. fold d. cbn zeta. replace (Z.max 0 (d - 53)) with (d - 53) by lia.
      exists m, l. split; [exact Hloc|reflexivity]. }
    set (q := round_nearest_even m l) in *.
    assert (HW : 0 < 2 ^ (d - 53)) by (apply Z.pow_pos_nonneg; lia).
    unfold renormalized. destruct (Z.eqb_spec q (2 ^ 53)) as [Hq53|Hq53].
    + exists (d - 53 + 1), (2 ^ 52), (q * 2 ^ (d - 53)).
      split; [reflexivity|]. split; [lia|]. split; [lia|]. split; [exact Hr|].
      rewrite Hq53. replace (d - 53 + 1 + 52) with (53 + (d - 53)) by lia.
      rewrite Z.pow_add_r by lia. reflexivity.
    + exists (d - 53), q, (q * 2 ^ (d - 53)).
      split; [reflexivity|]. split; [lia|]. split; [lia|]. split; [exact Hr|].
      replace (d - 53 + 52) with (52 + (d - 53)) by lia.
      rewrite Z.pow_add_r by lia. lia.
Qed.

Lemma value_order (Mt1 E1 Mt2 E2 : Z) :
  2 ^ 52 <= Mt1 < 2 ^ 53 -> 2 ^ 52 <= Mt2 < 2 ^ 53 -> -52 <= E1 -> -52 <= E2 ->
  Mt1 * 2 ^ (E1 + 52) <= Mt2 * 2 ^ (E2 + 52) ->
  E1 < E2 \/ (E1 = E2 /\ Mt1 <= Mt2).
Proof.
  intros H1 H2 He1 He2 Hv.
  assert (HW : 0 < 2 ^ (E2 + 52)) by (apply Z.pow_pos_nonneg; lia).
  destruct (Z.lt_trichotomy E1 E2) as [H|[H|H]]; [now left| |].
  - right. split; [exact H|]. subst E2.
    apply (Z.mul_le_mono_pos_r _ _ (2 ^ (E1 + 52))); assumption.
  - exfalso.
    assert (2 ^ (E2 + 53) <= 2 ^ (E1 + 52)) by (apply Z.pow_le_mono_r; lia).
    replace (E2 + 53) with (1 + (E2 + 52)) in H0 by lia.
    rewrite Z.pow_add_r in H0 by lia. change (2 ^ 1) with 2 in H0.
    set (W := 2 ^ (E2 + 52)) in *. set (V := 2 ^ (E1 + 52)) in *.
    assert (2 ^ 52 * V <= Mt1 * V) by (apply Z.mul_le_mono_nonneg_r; lia).
    assert (Mt2 * W < 2 ^ 53 * W) by (apply Z.mul_lt_mono_pos_r; lia).
    lia.
Qed.

Lemma packed_leb_pos (Mt1 E1 Mt2 E2 : Z) :
  2 ^ 52 <= Mt1 < 2 ^ 53 -> 2 ^ 52 <= Mt2 < 2 ^ 53 -> -52 <= E1 -> -52 <= E2 ->
  Mt1 * 2 ^ (E1 + 52) <= Mt2 * 2 ^ (E2 + 52) ->
  SFleb (packed false Mt1 E1) (packed false Mt2 E2) = true.
Proof.
  intros H1 H2 He1 He2 Hv.
  pose proof (value_order _ _ _ _ H1 H2 He1 He2 Hv) as Ho.
  unfold packed, SFleb, SFcompare.
  destruct (Z.leb_spec E1 971), (Z.leb_spec E2 971); try reflexivity; [|lia].
  change (Pos.compare_cont Eq) with Pos.compare.
  destruct (Z.compare_spec E1 E2); [|reflexivity|lia].
  destruct (Pos.compare_spec (Z.to_pos Mt1) (Z.to_pos Mt2)); try reflexivity. lia.
Qed.

Lemma packed_leb_neg (Mt1 E1 Mt2 E2 : Z) :
  2 ^ 52 <= Mt1 < 2 ^ 53 -> 2 ^ 52 <= Mt2 < 2 ^ 53 -> -52 <= E1 -> -52 <= E2 ->
  Mt1 * 2 ^ (E1 + 52) <= Mt2 * 2 ^ (E2 + 52) ->
  SFleb (packed true Mt2 E2) (packed true Mt1 E1) = true.
Proof.
  intros H1 H2 He1 He2 Hv.
  pose proof (value_order _ _ _ _ H1 H2 He1 He2 Hv) as Ho.
  unfold packed, SFleb, SFcompare.
  destruct (Z.leb_spec E1 971), (Z.leb_spec E2 971); try reflexivity; [|lia].
  change (Pos.compare_cont Eq) with Pos.compare.
  destruct (Z.compare_spec E2 E1); [|lia|reflexivity].
  destruct (Pos.compare_spec (Z.to_pos Mt2) (Z.to_pos Mt1)); try reflexivity. lia.
Qed.

Lemma of_int_mono (t1 t2 : Z) :
  t1 <= t2 -> SFleb (of_int t1) (of_int t2) = true.
Proof.
  intros Ht. unfold of_int, prec, emax, binary_normalize.
  destruct t1 as [|p1|p1], t2 as [|p2|p2]; try lia; try reflexivity.
  - destruct (binary_round_spec false p2) as (E & Mt & R & -> & _).
    unfold packed. destruct (E <=? 971); reflexivity.
  - destruct (binary_round_spec false p1) as (E1 & Mt1 & R1 & -> & B1 & G1 & Hr1 & V1).
    destruct (binary_round_spec false p2) as (E2 & Mt2 & R2 & -> & B2 & G2 & Hr2 & V2).
    apply packed_leb_pos; try assumption. rewrite V1, V2.
    apply Z.mul_le_mono_nonneg_l; [lia|]. apply (rounded_mono p1 p2); assumption || lia.
  - destruct (binary_round_spec true p1) as (E & Mt & R & -> & _).
    unfold packed. destruct (E <=? 971); reflexivity.
  - destruct (binary_round_spec true p1) as (E1 & Mt1 & R1 & -> & _).
    destruct (binary_round_spec false p2) as (E2 & Mt2 & R2 & -> & _).
    unfold packed. destruct (E1 <=? 971), (E2 <=? 971); reflexivity.
  - destruct (binary_round_spec true p1) as (E1 & Mt1 & R1 & -> & B1 & G1 & Hr1 & V1).
    destruct (binary_round_spec true p2) as (E2 & Mt2 & R2 & -> & B2 & G2 & Hr2 & V2).
    apply packed_leb_neg; try assumption. rewrite V1, V2.
    apply Z.mul_le_mono_nonneg_l; [lia|]. apply (rounded_mono p2 p1); assumption || lia.
Qed.

(** ** The loops *)

Lemma range_nil (a b : Z) : b <= a -> range a b = [].
Proof.
  intros H. unfold range.
  replace (Z.to_nat (b - a)) with 0%nat by lia. reflexivity.
Qed.

Lemma range_cons (a b : Z) : a < b -> range a b = a :: range (a + 1) b.
Proof.
  intros H. unfold range.
  replace (Z.to_nat (b - a)) with (S (Z.to_nat (b - (a + 1)))) by lia.
  cbn [seq map]. f_equal; [lia|].
  rewrite <- seq_shift, map_map.
  apply map_ext. intros i. lia.
Qed.

Lemma range_length (a b : Z) : Z.of_nat (List.length (range a b)) = Z.max 0 (b - a).
Proof. unfold range. rewrite length_map, length_seq. lia. Qed.

Lemma range_In (a b t : Z) : In t (range a b) <-> a <= t < b.
Proof.
  unfold range. rewrite in_map_iff. split.
  - intros (i & <- & Hi). apply in_seq in Hi. lia.
  - intros H. exists (Z.to_nat (t - a)). split; [lia|]. apply in_seq. lia.
Qed.

Lemma int_truediv_nonzero (a b : Z) :
  b <> 0 -> int_truediv a b = Ok (div (of_int a) (of_int b)).
Proof. intros H. unfold int_truediv. destruct (Z.eqb_spec b 0); [contradiction|reflexivity]. Qed.

Lemma shape0_pos {R} (df : list R) : df <> [] -> shape0 df <> 0.
Proof. destruct df; [congruence|]. intros _. unfold shape0. cbn. lia. Qed.

Lemma weather_loop_ok (df : list weather_row) (temps : list Z) (data : list table_row) :
  df <> [] -> weather_loop df temps data = Ok (data ++ map (raw_row y df) temps).
Proof.
  intros Hne. revert data. induction temps as [|t ts IH]; intros data; cbn [weather_loop map].
  - now rewrite app_nil_r.
  - rewrite int_truediv_nonzero by now apply shape0_pos.
    cbn [Py.bind]. rewrite IH, <- app_assoc. reflexivity.
Qed.

Lemma forecast_loop_ok (df : list forecast_row) (temps : list Z) (data : list table_row) :
  df <> [] -> forecast_loop df temps data = Ok (data ++ map (raw_row yhat_lower df) temps).
Proof.
  intros Hne. revert data. induction temps as [|t ts IH]; intros data; cbn [forecast_loop map].
  - now rewrite app_nil_r.
  - rewrite int_truediv_nonzero by now apply shape0_pos.
    cbn [Py.bind]. rewrite IH, <- app_assoc. reflexivity.
Qed.

Lemma weather_loop_no_rows (t : Z) (ts : list Z) (data : list table_row) :
  weather_loop [] (t :: ts) data = Raise ZeroDivisionError.
Proof. reflexivity. Qed.

Lemma weather_loop_no_temps (df : list weather_row) (data : list table_row) :
  weather_loop df [] data = Ok data.
Proof. reflexivity. Qed.

(** ** Sorting the rows the loop built *)

Lemma insert_desc_last (r : table_row) (l : list table_row) :
  (forall h, In h l -> Temp r < Temp h) -> insert_desc r l = l ++ [r].
Proof.
  induction l as [|h t IH]; intros Hall; cbn [insert_desc app]; [reflexivity|].
  destruct (Z.leb_spec (Temp h) (Temp r)) as [Hle|_].
  - specialize (Hall h (or_introl eq_refl)). lia.
  - rewrite IH; [reflexivity|]. intros k Hk. apply Hall. now right.
Qed.

Lemma sort_values_range (f : Z -> table_row) (a b : Z) :
  (forall t, Temp (f t) = t) ->
  sort_values_Temp_desc (map f (range a b)) = rev (map f (range a b)).
Proof.
  intros Hf. remember (Z.to_nat (b - a)) as n eqn:Hn. revert a Hn.
  induction n as [|n IH]; intros a Hn.
  - rewrite range_nil by lia. reflexivity.
  - rewrite range_cons by lia. cbn [map rev]. unfold sort_values_Temp_desc.
    cbn [fold_right]. fold (sort_values_Temp_desc (map f (range (a + 1) b))).
    rewrite IH by lia. apply insert_desc_last.
    intros h Hh. rewrite <- in_rev, in_map_iff in Hh.
    destruct Hh as (t & <- & Ht). apply range_In in Ht. rewrite !Hf. lia.
Qed.

Lemma round_raw_rows {R} (col : R -> float) (df : list R) (ts : list Z) :
  round_Proportion_Below 3 (rev (map (raw_row col df) ts))
  = map (shown_row col df) (rev ts).
Proof.
  unfold round_Proportion_Below. rewrite <- map_rev, map_map. reflexivity.
Qed.

(** ** What [table_weather] returns, case by case *)

Lemma table_weather_run (s : session) :
  weather s <> [] ->
  table_weather s
  = (Ok (map (shown_row y (weather s))
           (rev (range (fst (temp_range (input s))) (snd (temp_range (input s)) + 1)))),
     s).
Proof.
  intros Hne. unfold table_weather, mbind, get_weather, get_input, lift, ret.
  rewrite weather_loop_ok by assumption. cbn [app].
  rewrite sort_values_range by reflexivity.
  rewrite round_raw_rows. reflexivity.
Qed.

Lemma table_weather_empty_range (s : session) :
  snd (temp_range (input s)) < fst (temp_range (input s)) ->
  table_weather s = (Ok [], s).
Proof.
  intros H. unfold table_weather, mbind, get_weather, get_input, lift, ret.
  rewrite range_nil by lia. reflexivity.
Qed.

Lemma table_weather_no_rows (s : session) :
  weather s = [] ->
  fst (temp_range (input s)) <= snd (temp_range (input s)) ->
  table_weather s = (Raise ZeroDivisionError, s).
Proof.
  intros Hnil H. unfold table_weather, mbind, get_weather, get_input, lift, ret.
  rewrite Hnil, range_cons by lia. reflexivity.
Qed.

(** Whatever the series, a returned table is the shown rows of the range,
    highest temperature first. *)
Lemma table_weather_rows (s : session) (rows : list table_row) :
  fst (table_weather s) = Ok rows ->
  rows = map (shown_row y (weather s))
           (rev (range (fst (temp_range (input s))) (snd (temp_range (input s)) + 1))).
Proof.
  intros H.
  destruct (Z.lt_ge_cases (snd (temp_range (input s))) (fst (temp_range (input s)))) as [Hlt|Hge].
  - rewrite table_weather_empty_range in H by assumption. cbn in H.
    rewrite range_nil by lia. now inversion H.
  - destruct (weather s) eqn:Hw.
    + rewrite table_weather_no_rows in H by assumption. discriminate.
    + rewrite table_weather_run in H by (rewrite Hw; discriminate).
      cbn [fst] in H. rewrite Hw in H. now inversion H.
Qed.

Lemma table_weather_session (s : session) : snd (table_weather s) = s.
Proof.
  destruct (Z.lt_ge_cases (snd (temp_range (input s))) (fst (temp_range (input s)))) as [Hlt|Hge].
  - now rewrite table_weather_empty_range.
  - destruct (weather s) eqn:Hw.
    + now rewrite table_weather_no_rows.
    + rewrite table_weather_run by (rewrite Hw; discriminate). reflexivity.
Qed.

(** ** The comparison of a column value with a threshold *)

Lemma lt_int_mono (x : float) (t1 t2 : Z) :
  t1 <= t2 -> lt_int x t1 = true -> lt_int x t2 = true.
Proof.
  intros Ht H. unfold lt_int, ltb in *.
  apply (SFltb_leb_trans x (of_int t1)); [exact H|]. now apply of_int_mono.
Qed.

Lemma lt_int_nan (t : Z) : lt_int nan t = false.
Proof. unfold lt_int, ltb, nan, SFltb. destruct (of_int t); reflexivity. Qed.

Lemma lt_int_is_nan (x : float) (t : Z) : is_nan x = true -> lt_int x t = false.
Proof. destruct x; try discriminate. intros _. apply lt_int_nan. Qed.

Lemma lt_int_equal (x : float) (t : Z) :
  eqb x (of_int t) = true -> lt_int x t = false.
Proof.
  unfold lt_int, ltb, eqb, SFltb, SFeqb.
  destruct (SFcompare x (of_int t)) as [[| |]|]; congruence.
Qed.

Lemma count_below_mono {R} (col : R -> float) (df : list R) (t1 t2 : Z) :
  t1 <= t2 -> count_below col df t1 <= count_below col df t2.
Proof.
  intros Ht. unfold count_below. apply inj_le.
  induction df as [|r df IH]; cbn [filter]; [lia|].
  destruct (lt_int (col r) t1) eqn:H1.
  - rewrite (lt_int_mono _ _ _ Ht H1). cbn [List.length]. lia.
  - destruct (lt_int (col r) t2); cbn [List.length]; lia.
Qed.

Lemma count_below_bounds {R} (col : R -> float) (df : list R) (t : Z) :
  0 <= count_below col df t <= shape0 df.
Proof.
  unfold count_below, shape0. pose proof (filter_length_le (fun r => lt_int (col r) t) df). lia.
Qed.

Lemma count_below_column {R} (col : R -> float) (df : list R) (t : Z) :
  count_below col df t = count_below (fun v => v) (map col df) t.
Proof.
  unfold count_below. f_equal.
  induction df as [|r df IH]; cbn [map filter]; [reflexivity|].
  destruct (lt_int (col r) t); cbn [List.length]; now rewrite IH.
Qed.

Lemma shown_row_column {R} (col : R -> float) (df : list R) (t : Z) :
  shown_row col df t = shown_row (fun v => v) (map col df) t.
Proof.
  unfold shown_row, shape0. now rewrite length_map, <- count_below_column.
Qed.

(** A row of a returned table is the shown row of its own threshold, and the
    threshold lies in the slider's range. *)
Lemma table_weather_In (s : session) (rows : list table_row) (r : table_row) :
  fst (table_weather s) = Ok rows -> In r rows ->
  fst (temp_range (input s)) <= Temp r <= snd (temp_range (input s))
  /\ r = shown_row y (weather s) (Temp r).
Proof.
  intros Hrun Hin. rewrite (table_weather_rows s rows Hrun) in Hin.
  apply in_map_iff in Hin. destruct Hin as (t & <- & Ht).
  rewrite <- in_rev in Ht. apply range_In in Ht. cbn [Temp shown_row]. split; [lia|reflexivity].
Qed.

Lemma table_weather_has_row (s : session) (t : Z) :
  weather s <> [] ->
  fst (temp_range (input s)) <= t <= snd (temp_range (input s)) ->
  exists rows, fst (table_weather s) = Ok rows /\ In (shown_row y (weather s) t) rows.
Proof.
  intros Hne Ht. rewrite table_weather_run by exact Hne. eexists. split; [reflexivity|].
  apply in_map, in_rev. rewrite rev_involutive. apply range_In. lia.
Qed.

(** ** The forecast and its table *)

Lemma shape0_naive (df : list weather_row) : shape0 (naive df) = shape0 df.
Proof. unfold shape0, naive. now rewrite length_map. Qed.

Lemma forecast_closed (predict : prophet -> Z -> list forecast_row) (s : session) :
  shape0 (weather s) <= 364 ->
  forecast predict s
  = (Raise SilentException,
     {| input := input s; weather := naive (weather s); fitted := fitted s |}).
Proof.
  intros H. unfold forecast, mbind, get_weather, set_weather, req.
  fold (naive (weather s)). rewrite shape0_naive, Z.gtb_ltb.
  destruct (Z.ltb_spec 364 (shape0 (weather s))); [lia|reflexivity].
Qed.

Lemma forecast_open (predict : prophet -> Z -> list forecast_row) (s : session) :
  364 < shape0 (weather s) ->
  forecast predict s
  = (Ok ({| m_growth := forecast_trend (input s); m_history := naive (weather s) |},
         predict {| m_growth := forecast_trend (input s);
                    m_history := naive (weather s) |}
                 (forecast_years (input s) * 365)),
     {| input := input s; weather := naive (weather s);
        fitted := naive (weather s) :: fitted s |}).
Proof.
  intros H. unfold forecast, mbind, get_weather, set_weather, req.
  fold (naive (weather s)). rewrite shape0_naive, Z.gtb_ltb.
  destruct (Z.ltb_spec 364 (shape0 (weather s))); [reflexivity|lia].
Qed.

Lemma table_forecast_closed (predict : prophet -> Z -> list forecast_row) (s : session) :
  shape0 (weather s) <= 364 ->
  fst (table_forecast predict s) = Raise SilentException.
Proof.
  intros H. unfold table_forecast, mbind. now rewrite forecast_closed.
Qed.

Lemma plot_forecast_closed (predict : prophet -> Z -> list forecast_row) (s : session) :
  shape0 (weather s) <= 364 ->
  fst (plot_forecast predict s) = Raise SilentException.
Proof.
  intros H. unfold plot_forecast, mbind. now rewrite forecast_closed.
Qed.

Lemma table_forecast_rows (predict : prophet -> Z -> list forecast_row)
    (s : session) (rows : list table_row) :
  fst (table_forecast predict s) = Ok rows ->
  exists m df,
    fst (forecast predict s) = Ok (m, df) /\
    rows = map (shown_row yhat_lower df)
             (rev (range (fst (temp_range (input s))) (snd (temp_range (input s)) + 1))).
Proof.
  intros Hrun.
  destruct (Z.le_gt_cases (shape0 (weather s)) 364) as [Hc|Ho].
  - rewrite table_forecast_closed in Hrun by exact Hc. discriminate.
  - unfold table_forecast, mbind in Hrun. rewrite forecast_open in * by lia.
    cbn [fst snd get_input input lift ret] in *.
    do 2 eexists. split; [reflexivity|].
    set (df := predict _ _) in *. clearbody df.
    set (lo := fst (temp_range (input s))) in *.
    set (hi := snd (temp_range (input s))) in *.
    destruct (Z.lt_ge_cases hi lo) as [Hlt|Hge].
    + rewrite range_nil in * by lia. cbn in Hrun. now inversion Hrun.
    + destruct df as [|f df].
      * rewrite range_cons in Hrun by lia. discriminate.
      * rewrite forecast_loop_ok in Hrun by discriminate. cbn [app fst] in Hrun.
        rewrite sort_values_range, round_raw_rows in Hrun by reflexivity.
        now inversion Hrun.
Qed.

(** The table on the series 5, 15, 25 for the range 14 .. 16, and on the
    series 10 .. 50 for the range 0 .. 2. *)
Example table_weather_5_15_25 :
  fst (table_weather (session_of [of_int 5; of_int 15; of_int 25] 14 16))
  = Ok [ {| Temp := 16; Days_Below := 2;
            Proportion_Below := div (of_int 667) (of_int 1000) |};
         {| Temp := 15; Days_Below := 1;
            Proportion_Below := div (of_int 333) (of_int 1000) |};
         {| Temp := 14; Days_Below := 1;
            Proportion_Below := div (of_int 333) (of_int 1000) |} ].
Proof. vm_compute. reflexivity. Qed.

Example table_weather_none_below :
  fst (table_weather
         (session_of [of_int 10; of_int 20; of_int 30; of_int 40; of_int 50] 0 2))
  = Ok [ {| Temp := 2; Days_Below := 0; Proportion_Below := S754_zero false |};
         {| Temp := 1; Days_Below := 0; Proportion_Below := S754_zero false |};
         {| Temp := 0; Days_Below := 0; Proportion_Below := S754_zero false |} ].
Proof. vm_compute. reflexivity. Qed.

(** ** The claims *)

(** C1, as stated, fails: on the series 5, 15, 25 and the threshold 10 one
    observation of three lies below, and the returned proportion is the
    three-decimal 0.333, not the quotient 1/3. *)
Lemma C1_table_rounds_counterexample :
  fst (table_weather (session_of [of_int 5; of_int 15; of_int 25] 10 10))
  = Ok [{| Temp := 10; Days_Below := 1;
           Proportion_Below := div (of_int 333) (of_int 1000) |}]
  /\ div (of_int 333) (of_int 1000) <> div (of_int 1) (of_int 3).
Proof. split; [vm_compute; reflexivity | vm_compute; discriminate]. Qed.

(** C1, amended: for every series with at least one row and every threshold
    [t] of the swept range, the returned table has a row for [t] whose
    proportion is the quotient of its count by the number of rows, rounded
    to three decimals as [round(3)] does; and every row of a forecast table
    is formed the same way from the forecast frame. *)
Theorem C1_proportion_is_rounded_quotient :
  (forall (s : session) (t : Z),
     weather s <> [] ->
     fst (temp_range (input s)) <= t <= snd (temp_range (input s)) ->
     exists rows r,
       fst (table_weather s) = Ok rows /\ In r rows /\ Temp r = t /\
       Days_Below r = count_below y (weather s) t /\
       Proportion_Below r
       = round (div (of_int (Days_Below r)) (of_int (shape0 (weather s)))) 3)
  /\
  (forall (predict : prophet -> Z -> list forecast_row) (s : session)
          (rows : list table_row) (r : table_row),
     fst (table_forecast predict s) = Ok rows -> In r rows ->
     exists m df,
       fst (forecast predict s) = Ok (m, df) /\
       Days_Below r = count_below yhat_lower df (Temp r) /\
       Proportion_Below r
       = round (div (of_int (Days_Below r)) (of_int (shape0 df))) 3).
Proof.
  split.
  - intros s t Hne Ht.
    destruct (table_weather_has_row s t Hne Ht) as (rows & Hrun & Hin).
    exists rows, (shown_row y (weather s) t). repeat split; assumption || reflexivity.
  - intros predict s rows r Hrun Hin.
    destruct (table_forecast_rows predict s rows Hrun) as (m & df & Hf & ->).
    exists m, df. split; [exact Hf|].
    apply in_map_iff in Hin. destruct Hin as (t & <- & _). split; reflexivity.
Qed.

Lemma C1_proportion_is_rounded_quotient_witness :
  (exists rows r,
     fst (table_weather (session_of [of_int 5; of_int 15; of_int 25] 10 10)) = Ok rows
     /\ In r rows /\ Temp r = 10 /\ Days_Below r = 1
     /\ Proportion_Below r = round (div (of_int 1) (of_int 3)) 3)
  /\
  (let predict := fun (m : prophet) (periods : Z) =>
                    [ {| f_ds := {| seconds := 0; tz_aware := false |};
                         yhat := of_int 12; yhat_lower := of_int 5;
                         yhat_upper := of_int 20 |};
                      {| f_ds := {| seconds := 86400; tz_aware := false |};
                         yhat := of_int 22; yhat_lower := of_int 15;
                         yhat_upper := of_int 30 |};
                      {| f_ds := {| seconds := 172800; tz_aware := false |};
                         yhat := of_int 32; yhat_lower := of_int 25;
                         yhat_upper := of_int 40 |} ] in
   let r := {| Temp := 10; Days_Below := 1;
               Proportion_Below := div (of_int 333) (of_int 1000) |} in
   exists m df,
     fst (forecast predict (session_of (repeat (of_int 50) 365) 10 10)) = Ok (m, df)
     /\ Days_Below r = count_below yhat_lower df (Temp r)
     /\ Proportion_Below r
        = round (div (of_int (Days_Below r)) (of_int (shape0 df))) 3).
Proof.
  split.
  - destruct (proj1 C1_proportion_is_rounded_quotient
                (session_of [of_int 5; of_int 15; of_int 25] 10 10) 10)
      as (rows & r & H1 & H2 & H3 & H4 & H5).
    + discriminate.
    + cbn. lia.
    + exists rows, r. rewrite H4 in H5.
      split; [exact H1|]. split; [exact H2|]. split; [exact H3|].
      split; [rewrite H4; reflexivity | exact H5].
  - intros predict r.
    apply (proj2 C1_proportion_is_rounded_quotient predict
             (session_of (repeat (of_int 50) 365) 10 10) [r] r).
    + vm_compute. reflexivity.
    + left. reflexivity.
Defined.

Lemma filter_split_length {A} (p : A -> bool) (l : list A) :
  List.length l
  = (List.length (filter p l) + List.length (filter (fun a => negb (p a)) l))%nat.
Proof.
  induction l as [|a l IH]; cbn [filter List.length]; [reflexivity|].
  destruct (p a); cbn [negb List.length]; lia.
Qed.

Lemma count_below_skips_nan (df : list weather_row) (t : Z) :
  count_below y df t
  = Z.of_nat (List.length
      (filter (fun w => negb (is_nan (y w)) && lt_int (y w) t) df)).
Proof.
  unfold count_below. f_equal. f_equal. apply filter_ext. intros w.
  destruct (is_nan (y w)) eqn:Hn; cbn [negb andb]; [|reflexivity].
  now apply lt_int_is_nan.
Qed.

(** C2, as stated, fails on the denominator: on the series NaN, 5 and the
    threshold 10 the one real observation lies below, yet the returned
    proportion is 1/2 (two rows), not 1/1 (one observation that is there). *)
Lemma C2_nan_in_denominator_counterexample :
  fst (table_weather (session_of [nan; of_int 5] 10 10))
  = Ok [{| Temp := 10; Days_Below := 1;
           Proportion_Below := div (of_int 1) (of_int 2) |}]
  /\ div (of_int 1) (of_int 2) <> round (div (of_int 1) (of_int 1)) 3
  /\ div (of_int 1) (of_int 2) <> div (of_int 1) (of_int 1).
Proof. repeat split; vm_compute; (reflexivity || discriminate). Qed.

(** C2, amended: in every returned row the count leaves the NaN observations
    out, whatever the threshold, and the denominator of the proportion is
    the number of all rows, the NaN ones and the others together. *)
Theorem C2_nan_not_below_but_in_total
    (s : session) (rows : list table_row) (r : table_row) :
  fst (table_weather s) = Ok rows -> In r rows ->
  Days_Below r
  = Z.of_nat (List.length
      (filter (fun w => negb (is_nan (y w)) && lt_int (y w) (Temp r)) (weather s)))
  /\ Proportion_Below r
     = round (div (of_int (Days_Below r))
                  (of_int (Z.of_nat (List.length (filter (fun w => is_nan (y w)) (weather s)))
                           + Z.of_nat (List.length
                               (filter (fun w => negb (is_nan (y w))) (weather s))))))
             3.
Proof.
  intros Hrun Hin. destruct (table_weather_In s rows r Hrun Hin) as [_ Hr].
  rewrite <- Nat2Z.inj_add, <- (filter_split_length (fun w => is_nan (y w))).
  rewrite Hr at 1 3. cbn [Days_Below Proportion_Below shown_row].
  split; [apply count_below_skips_nan|].
  rewrite Hr. reflexivity.
Qed.

Lemma C2_nan_not_below_but_in_total_witness :
  let s := session_of [nan; of_int 5] 10 10 in
  let r := {| Temp := 10; Days_Below := 1;
              Proportion_Below := div (of_int 1) (of_int 2) |} in
  Days_Below r = 1 /\ Proportion_Below r = round (div (of_int 1) (of_int (1 + 1))) 3.
Proof.
  intros s r.
  assert (Hrun : fst (table_weather s) = Ok [r]) by (vm_compute; reflexivity).
  pose proof (C2_nan_not_below_but_in_total s [r] r Hrun (or_introl eq_refl)) as H.
  vm_compute in H. vm_compute. exact H.
Defined.

Lemma count_below_all_nan (df : list weather_row) (t : Z) :
  (forall w, In w df -> is_nan (y w) = true) -> count_below y df t = 0.
Proof.
  intros Hall. rewrite count_below_skips_nan.
  replace (filter _ df) with (@nil weather_row); [reflexivity|].
  symmetry. induction df as [|w df IH]; [reflexivity|]. cbn [filter].
  rewrite (Hall w (or_introl eq_refl)). cbn [negb andb].
  apply IH. intros v Hv. apply Hall. now right.
Qed.

Lemma div_zero_of_pos (p : positive) :
  div (S754_zero false) (of_int (Zpos p)) = S754_zero false.
Proof.
  unfold of_int, prec, emax, binary_normalize.
  destruct (binary_round_spec false p) as (E & Mt & R & -> & _).
  unfold packed. destruct (E <=? 971); reflexivity.
Qed.

Lemma shown_row_all_nan (df : list weather_row) (t : Z) :
  df <> [] -> (forall w, In w df -> is_nan (y w) = true) ->
  shown_row y df t
  = {| Temp := t; Days_Below := 0; Proportion_Below := S754_zero false |}.
Proof.
  intros Hne Hall. unfold shown_row. rewrite count_below_all_nan by exact Hall.
  f_equal. pose proof (shape0_pos df Hne) as Hs. unfold shape0 in *.
  destruct (Z.of_nat (List.length df)) as [|p|p] eqn:Hl; try lia.
  change (of_int 0) with (S754_zero false). rewrite div_zero_of_pos.
  vm_compute. reflexivity.
Qed.

(** C3, as stated, fails: with no rows at all the table function stops on
    Python's own [ZeroDivisionError], and with rows that are all NaN (no
    real observation either) it returns a table of zeros. *)
Lemma C3_empty_series_counterexample :
  fst (table_weather (session_of [] 0 10)) = Raise ZeroDivisionError
  /\ fst (table_weather (session_of [nan] 0 0))
     = Ok [{| Temp := 0; Days_Below := 0; Proportion_Below := S754_zero false |}].
Proof. split; vm_compute; reflexivity. Qed.

(** C3, amended: for every range with low <= high, a series without rows
    makes the table function raise the interpreter's [ZeroDivisionError] and
    leave the session as it was; a series whose rows are all NaN yields the
    high - low + 1 rows, each with count 0 and proportion 0. *)
Theorem C3_empty_series_divides_by_zero (s : session) :
  fst (temp_range (input s)) <= snd (temp_range (input s)) ->
  (weather s = [] -> table_weather s = (Raise ZeroDivisionError, s))
  /\ (weather s <> [] -> (forall w, In w (weather s) -> is_nan (y w) = true) ->
      exists rows,
        fst (table_weather s) = Ok rows
        /\ Z.of_nat (List.length rows)
           = snd (temp_range (input s)) - fst (temp_range (input s)) + 1
        /\ forall r, In r rows ->
             Days_Below r = 0 /\ Proportion_Below r = S754_zero false).
Proof.
  intros Hr. split.
  - intros Hnil. now apply table_weather_no_rows.
  - intros Hne Hall. rewrite table_weather_run by exact Hne. eexists.
    split; [reflexivity|]. split.
    + rewrite length_map, length_rev, range_length. lia.
    + intros r Hin. apply in_map_iff in Hin. destruct Hin as (t & <- & _).
      rewrite shown_row_all_nan by assumption. split; reflexivity.
Qed.

Lemma C3_empty_series_divides_by_zero_witness :
  table_weather (session_of [] 0 10)
  = (Raise ZeroDivisionError, session_of [] 0 10)
  /\ exists rows,
       fst (table_weather (session_of [nan; nan] 0 2)) = Ok rows
       /\ Z.of_nat (List.length rows) = 2 - 0 + 1
       /\ forall r, In r rows ->
            Days_Below r = 0 /\ Proportion_Below r = S754_zero false.
Proof.
  split.
  - apply (proj1 (C3_empty_series_divides_by_zero (session_of [] 0 10)
                    ltac:(cbn; lia))).
    reflexivity.
  - apply (proj2 (C3_empty_series_divides_by_zero (session_of [nan; nan] 0 2)
                    ltac:(cbn; lia))).
    + discriminate.
    + intros w [<-|[<-|[]]]; reflexivity.
Defined.

(** C4, as stated, fails for the series without rows: with low = high = 0
    it raises instead of returning one row. *)
Lemma C4_row_count_counterexample :
  fst (table_weather (session_of [] 0 0)) = Raise ZeroDivisionError
  /\ forall rows, fst (table_weather (session_of [] 0 0)) <> Ok rows.
Proof. split; [vm_compute; reflexivity | intros rows; vm_compute; discriminate]. Qed.

(** C4, amended: for every series with at least one row and low <= high the
    table has exactly high - low + 1 rows (one when low = high); for every
    series, with or without rows, low > high gives the table without rows
    and no error. *)
Theorem C4_row_count (s : session) :
  (fst (temp_range (input s)) <= snd (temp_range (input s)) ->
   weather s <> [] ->
   exists rows,
     fst (table_weather s) = Ok rows
     /\ Z.of_nat (List.length rows)
        = snd (temp_range (input s)) - fst (temp_range (input s)) + 1)
  /\ (snd (temp_range (input s)) < fst (temp_range (input s)) ->
      fst (table_weather s) = Ok []).
Proof.
  split.
  - intros Hr Hne. rewrite table_weather_run by exact Hne. eexists.
    split; [reflexivity|]. rewrite length_map, length_rev, range_length. lia.
  - intros Hr. now rewrite table_weather_empty_range.
Qed.

Lemma C4_row_count_witness :
  (exists rows,
     fst (table_weather (session_of [of_int 5; of_int 15; of_int 25] 10 20)) = Ok rows
     /\ Z.of_nat (List.length rows) = 20 - 10 + 1)
  /\ fst (table_weather (session_of [] 20 10)) = Ok [].
Proof.
  split.
  - apply (proj1 (C4_row_count (session_of [of_int 5; of_int 15; of_int 25] 10 20))).
    + cbn. lia.
    + discriminate.
  - apply (proj2 (C4_row_count (session_of [] 20 10))). cbn. lia.
Defined.

Lemma range_snoc (a b : Z) : a < b -> range a b = range a (b - 1) ++ [b - 1].
Proof.
  intros H. unfold range.
  replace (Z.to_nat (b - a)) with (S (Z.to_nat (b - 1 - a))) by lia.
  rewrite seq_S, map_app. cbn [map Nat.add]. do 2 f_equal. lia.
Qed.

Lemma rev_range_descending (a b : Z) : strictly_descending (rev (range a b)).
Proof.
  remember (Z.to_nat (b - a)) as n eqn:Hn. revert b Hn.
  induction n as [|n IH]; intros b Hn.
  - rewrite range_nil by lia. exact I.
  - rewrite range_snoc, rev_app_distr by lia. cbn [rev app].
    specialize (IH (b - 1) ltac:(lia)).
    destruct (Z.lt_ge_cases a (b - 1)) as [Hlt|Hge].
    + rewrite range_snoc, rev_app_distr in * by lia. cbn [rev app] in *.
      split; [lia|exact IH].
    + rewrite range_nil by lia. exact I.
Qed.

Lemma shown_rows_Temp {R} (col : R -> float) (df : list R) (ts : list Z) :
  map Temp (map (shown_row col df) ts) = ts.
Proof. rewrite map_map. cbn [Temp shown_row]. apply map_id. Qed.

Lemma table_weather_returns (s : session) :
  weather s <> [] -> exists rows, fst (table_weather s) = Ok rows.
Proof. intros Hne. rewrite table_weather_run by exact Hne. eexists. reflexivity. Qed.

(** C5: every series with at least one row gets a table, and the thresholds
    of a returned table are the integers of the range read from high
    down to low, whatever the observations and their order; so consecutive
    rows have strictly decreasing thresholds, the first row is the one of
    high and the last the one of low. *)
Theorem C5_rows_descend (s : session) :
  (weather s <> [] -> exists rows, fst (table_weather s) = Ok rows)
  /\ forall rows : list table_row,
  fst (table_weather s) = Ok rows ->
  map Temp rows
  = rev (range (fst (temp_range (input s))) (snd (temp_range (input s)) + 1))
  /\ strictly_descending (map Temp rows)
  /\ (fst (temp_range (input s)) <= snd (temp_range (input s)) ->
      hd_error (map Temp rows) = Some (snd (temp_range (input s)))
      /\ last (map Temp rows) 0 = fst (temp_range (input s))).
Proof.
  split; [apply table_weather_returns|].
  intros rows Hrun. rewrite (table_weather_rows s rows Hrun), shown_rows_Temp.
  set (lo := fst (temp_range (input s))). set (hi := snd (temp_range (input s))).
  split; [reflexivity|]. split; [apply rev_range_descending|].
  intros Hr. split.
  - rewrite range_snoc, rev_app_distr by lia. cbn [rev app hd_error].
    f_equal. lia.
  - rewrite range_cons by lia. cbn [rev]. apply last_last.
Qed.

Lemma C5_rows_descend_witness :
  let rows := [ {| Temp := 12; Days_Below := 1;
                   Proportion_Below := div (of_int 333) (of_int 1000) |};
                {| Temp := 11; Days_Below := 1;
                   Proportion_Below := div (of_int 333) (of_int 1000) |};
                {| Temp := 10; Days_Below := 1;
                   Proportion_Below := div (of_int 333) (of_int 1000) |} ] in
  map Temp rows = [12; 11; 10]
  /\ strictly_descending (map Temp rows)
  /\ (10 <= 12 -> hd_error (map Temp rows) = Some 12 /\ last (map Temp rows) 0 = 10).
Proof.
  intros rows.
  apply (proj2 (C5_rows_descend (session_of [of_int 25; of_int 5; of_int 15] 10 12))
           rows).
  vm_compute. reflexivity.
Defined.

(** *** The comparison with a threshold the format holds exactly *)

Lemma of_int_exact (s : bool) (p : positive) :
  Zpos p < 2 ^ 53 ->
  exists M E,
    of_int (if s then Zneg p else Zpos p) = S754_finite s M E
    /\ 2 ^ 52 <= Zpos M < 2 ^ 53 /\ -52 <= E <= 0 /\ Zpos M = Zpos p * 2 ^ (- E).
Proof.
  intros Hp. pose proof (digits2_pos_bounds p) as Hb.
  set (d := Zpos (digits2_pos p)) in *.
  assert (Hd1 : 1 <= d) by (subst d; lia).
  assert (Hd : d <= 53).
  { destruct (Z.le_gt_cases d 53) as [H|H]; [exact H|].
    assert (2 ^ 53 <= 2 ^ (d - 1)) by (apply Z.pow_le_mono_r; lia). lia. }
  assert (HW : 0 < 2 ^ (53 - d)) by (apply Z.pow_pos_nonneg; lia).
  assert (H1 : 2 ^ (d - 1) * 2 ^ (53 - d) = 2 ^ 52).
  { rewrite <- Z.pow_add_r by lia. f_equal. lia. }
  assert (H2 : 2 ^ d * 2 ^ (53 - d) = 2 ^ 53).
  { rewrite <- Z.pow_add_r by lia. f_equal. lia. }
  exists (Z.to_pos (Zpos p * 2 ^ (53 - d))), (d - 53).
  rewrite Z2Pos.id by nia. replace (- (d - 53)) with (53 - d) by lia.
  split; [|split; [nia|split; [lia|reflexivity]]].
  unfold of_int, prec, emax, binary_normalize.
  destruct s; rewrite binary_round_small by exact Hd; fold d; unfold packed;
    destruct (Z.leb_spec (d - 53) 971) as [_|H]; try lia; reflexivity.
Qed.

Lemma binary64_bounds (s : bool) (m : positive) (e : Z) :
  binary64 (S754_finite s m e) = true ->
  Zpos m < 2 ^ 53 /\ -1074 <= e /\ (e = -1074 \/ 2 ^ 52 <= Zpos m).
Proof.
  unfold binary64, valid_binary, bounded, canonical_mantissa, fexp, emin, prec, emax.
  intros H. apply andb_prop in H. destruct H as [H _]. apply Z.eqb_eq in H.
  pose proof (digits2_pos_bounds m) as Hb.
  set (d := Zpos (digits2_pos m)) in *.
  assert (Hd1 : 1 <= d) by (subst d; lia).
  assert (Hd : d <= 53) by lia.
  assert (2 ^ d <= 2 ^ 53) by (apply Z.pow_le_mono_r; lia).
  split; [lia|]. split; [lia|].
  destruct (Z.eq_dec e (-1074)) as [He|He]; [now left|right].
  assert (E : d = 53) by lia. rewrite E in Hb. exact (proj1 Hb).
Qed.

Lemma pow2_split (a b : Z) : 0 <= a -> 0 <= b -> 2 ^ (a + b) = 2 ^ a * 2 ^ b.
Proof. intros. now rewrite Z.pow_add_r. Qed.

Lemma below_pos (mx : positive) (ex : Z) (p M : positive) (E : Z) :
  Zpos mx < 2 ^ 53 -> -1074 <= ex -> (ex = -1074 \/ 2 ^ 52 <= Zpos mx) ->
  2 ^ 52 <= Zpos M < 2 ^ 53 -> -52 <= E <= 0 -> Zpos M = Zpos p * 2 ^ (- E) ->
  (if 0 <=? ex then Zpos mx * 2 ^ ex <? Zpos p else Zpos mx <? Zpos p * 2 ^ (- ex))
  = match ex ?= E with
    | Eq => match Pos.compare mx M with Lt => true | _ => false end
    | Lt => true
    | Gt => false
    end.
Proof.
  intros Hm He Hn HM HE Hv.
  assert (HWE : 0 < 2 ^ (- E)) by (apply Z.pow_pos_nonneg; lia).
  destruct (Z.compare_spec ex E) as [Heq|Hlt|Hgt].
  - subst ex.
    destruct (Z.leb_spec 0 E) as [H0|H0].
    + assert (E = 0) by lia. subst E. change (2 ^ (- 0)) with 1 in Hv.
      change (2 ^ 0) with 1. rewrite Z.mul_1_r in *. rewrite <- Hv.
      destruct (Z.ltb_spec (Zpos mx) (Zpos M)), (Pos.compare_spec mx M);
        try reflexivity; lia.
    + rewrite <- Hv.
      destruct (Z.ltb_spec (Zpos mx) (Zpos M)), (Pos.compare_spec mx M);
        try reflexivity; lia.
  - destruct (Z.leb_spec 0 ex) as [H0|H0]; [lia|].
    apply Z.ltb_lt.
    replace (- ex) with (- E + (E - ex)) by lia.
    rewrite pow2_split by lia.
    assert (2 <= 2 ^ (E - ex)).
    { change 2 with (2 ^ 1) at 1. apply Z.pow_le_mono_r; lia. }
    nia.
  - assert (Hnorm : 2 ^ 52 <= Zpos mx) by (destruct Hn; [lia|assumption]).
    destruct (Z.leb_spec 0 ex) as [H0|H0].
    + apply Z.ltb_ge.
      destruct (Z.eq_dec ex 0) as [->|Hex].
      * change (2 ^ 0) with 1.
        assert (2 <= 2 ^ (- E)).
        { change 2 with (2 ^ 1) at 1. apply Z.pow_le_mono_r; lia. }
        nia.
      * assert (2 <= 2 ^ ex).
        { change 2 with (2 ^ 1) at 1. apply Z.pow_le_mono_r; lia. }
        assert (Zpos p <= Zpos M) by nia. nia.
    + apply Z.ltb_ge.
      replace (- E) with (- ex + (ex - E)) in Hv by lia.
      rewrite pow2_split in Hv by lia.
      assert (2 <= 2 ^ (ex - E)).
      { change 2 with (2 ^ 1) at 1. apply Z.pow_le_mono_r; lia. }
      assert (0 < 2 ^ (- ex)) by (apply Z.pow_pos_nonneg; lia).
      nia.
Qed.

Lemma below_neg (mx : positive) (ex : Z) (p M : positive) (E : Z) :
  Zpos mx < 2 ^ 53 -> -1074 <= ex -> (ex = -1074 \/ 2 ^ 52 <= Zpos mx) ->
  2 ^ 52 <= Zpos M < 2 ^ 53 -> -52 <= E <= 0 -> Zpos M = Zpos p * 2 ^ (- E) ->
  (if 0 <=? ex then Zneg mx * 2 ^ ex <? Zneg p else Zneg mx <? Zneg p * 2 ^ (- ex))
  = match ex ?= E with
    | Eq => match Pos.compare mx M with Gt => true | _ => false end
    | Lt => false
    | Gt => true
    end.
Proof.
  intros Hm He Hn HM HE Hv.
  assert (HWE : 0 < 2 ^ (- E)) by (apply Z.pow_pos_nonneg; lia).
  rewrite <- !Pos2Z.opp_pos.
  destruct (Z.compare_spec ex E) as [Heq|Hlt|Hgt].
  - subst ex.
    destruct (Z.leb_spec 0 E) as [H0|H0].
    + assert (E = 0) by lia. subst E. change (2 ^ (- 0)) with 1 in Hv.
      change (2 ^ 0) with 1. rewrite Z.mul_1_r in *. rewrite <- Hv.
      destruct (Z.ltb_spec (- Zpos mx) (- Zpos M)), (Pos.compare_spec mx M);
        try reflexivity; lia.
    + rewrite Z.mul_opp_l, <- Hv.
      destruct (Z.ltb_spec (- Zpos mx) (- Zpos M)), (Pos.compare_spec mx M);
        try reflexivity; lia.
  - destruct (Z.leb_spec 0 ex) as [H0|H0]; [lia|].
    apply Z.ltb_ge.
    replace (- ex) with (- E + (E - ex)) by lia.
    rewrite pow2_split by lia.
    assert (2 <= 2 ^ (E - ex)).
    { change 2 with (2 ^ 1) at 1. apply Z.pow_le_mono_r; lia. }
    nia.
  - assert (Hnorm : 2 ^ 52 <= Zpos mx) by (destruct Hn; [lia|assumption]).
    destruct (Z.leb_spec 0 ex) as [H0|H0].
    + apply Z.ltb_lt.
      destruct (Z.eq_dec ex 0) as [->|Hex].
      * change (2 ^ 0) with 1.
        assert (2 <= 2 ^ (- E)).
        { change 2 with (2 ^ 1) at 1. apply Z.pow_le_mono_r; lia. }
        nia.
      * assert (2 <= 2 ^ ex).
        { change 2 with (2 ^ 1) at 1. apply Z.pow_le_mono_r; lia. }
        assert (Zpos p <= Zpos M) by nia. nia.
    + apply Z.ltb_lt.
      replace (- E) with (- ex + (ex - E)) in Hv by lia.
      rewrite pow2_split in Hv by lia.
      assert (2 <= 2 ^ (ex - E)).
      { change 2 with (2 ^ 1) at 1. apply Z.pow_le_mono_r; lia. }
      assert (0 < 2 ^ (- ex)) by (apply Z.pow_pos_nonneg; lia).
      nia.
Qed.

(** For a threshold below [2^53] in magnitude, which the conversion leaves
    as it is, the loop's comparison is the comparison of the values. *)
Lemma lt_int_below (x : float) (t : Z) :
  binary64 x = true -> Z.abs t < 2 ^ 53 ->
  lt_int x t = below x t.
Proof.
  intros Hv Ht. unfold lt_int, ltb, SFltb.
  destruct t as [|p|p].
  - change (of_int 0) with (S754_zero false).
    destruct x as [sx|sx| |sx mx ex]; cbn [SFcompare below]; try reflexivity.
    + destruct sx; reflexivity.
    + assert (0 < 2 ^ ex \/ ex < 0).
      { destruct (Z.le_gt_cases 0 ex); [left; apply Z.pow_pos_nonneg; lia|right; lia]. }
      destruct sx, (Z.leb_spec 0 ex); symmetry;
        try (apply Z.ltb_lt; nia); try (apply Z.ltb_ge; nia).
  - destruct (of_int_exact false p ltac:(lia)) as (M & E & -> & HM & HE & HV).
    destruct x as [sx|sx| |sx mx ex]; cbn [SFcompare below]; try reflexivity.
    + destruct sx; reflexivity.
    + destruct (binary64_bounds _ _ _ Hv) as (Hm & He & Hn).
      destruct sx.
      * symmetry. assert (0 < 2 ^ ex \/ ex < 0).
        { destruct (Z.le_gt_cases 0 ex); [left; apply Z.pow_pos_nonneg; lia|right; lia]. }
        assert (0 < 2 ^ (- ex) \/ 0 <= ex).
        { destruct (Z.le_gt_cases 0 ex); [right; lia|left; apply Z.pow_pos_nonneg; lia]. }
        destruct (Z.leb_spec 0 ex); apply Z.ltb_lt; nia.
      * rewrite (below_pos mx ex p M E Hm He Hn HM HE HV).
        change (Pos.compare_cont Eq) with Pos.compare.
        destruct (ex ?= E); [destruct (Pos.compare mx M)|..]; reflexivity.
  - destruct (of_int_exact true p ltac:(lia)) as (M & E & -> & HM & HE & HV).
    destruct x as [sx|sx| |sx mx ex]; cbn [SFcompare below]; try reflexivity.
    + destruct sx; reflexivity.
    + destruct (binary64_bounds _ _ _ Hv) as (Hm & He & Hn).
      destruct sx.
      * rewrite (below_neg mx ex p M E Hm He Hn HM HE HV).
        change (Pos.compare_cont Eq) with Pos.compare.
        destruct (ex ?= E); [destruct (Pos.compare mx M)|..]; reflexivity.
      * symmetry. assert (0 < 2 ^ ex \/ ex < 0).
        { destruct (Z.le_gt_cases 0 ex); [left; apply Z.pow_pos_nonneg; lia|right; lia]. }
        assert (0 < 2 ^ (- ex) \/ 0 <= ex).
        { destruct (Z.le_gt_cases 0 ex); [right; lia|left; apply Z.pow_pos_nonneg; lia]. }
        destruct (Z.leb_spec 0 ex); apply Z.ltb_ge; nia.
Qed.

Lemma equal_not_below (x : float) (t : Z) :
  equal_to x t = true -> below x t = false.
Proof.
  destruct x as [sx|sx| |sx mx ex]; cbn [equal_to below]; try discriminate.
  - intros H. apply Z.eqb_eq in H. subst t. reflexivity.
  - destruct (0 <=? ex); intros H; apply Z.eqb_eq in H; apply Z.ltb_ge; lia.
Qed.

Lemma count_below_values (df : list weather_row) (t : Z) :
  (forall w, In w df -> binary64 (y w) = true) -> Z.abs t < 2 ^ 53 ->
  count_below y df t
  = Z.of_nat (List.length (filter (fun w => below (y w) t) df)).
Proof.
  intros Hv Ht. unfold count_below. do 2 f_equal.
  apply filter_ext_in. intros w Hw. apply lt_int_below; [now apply Hv|exact Ht].
Qed.

Lemma filter_disjoint_length {A} (f g : A -> bool) (l : list A) :
  (forall a, In a l -> g a = true -> f a = false) ->
  (List.length (filter f l) + List.length (filter g l) <= List.length l)%nat.
Proof.
  induction l as [|a l IH]; intros H; cbn [filter List.length]; [lia|].
  assert (IH' := IH (fun b Hb => H b (or_intror Hb))).
  destruct (g a) eqn:Hg.
  - rewrite (H a (or_introl eq_refl) Hg). cbn [List.length]. lia.
  - destruct (f a); cbn [List.length]; lia.
Qed.

(** C6: for a series of binary64 values and a slider range within
    [-2^24, 2^24], where a threshold is converted without rounding: every
    series with at least one row gets a table, and the count of a returned
    row is the number of observations whose value is strictly less than the
    row's threshold.  An observation whose value is the threshold is
    rejected by the loop's comparison, so the count and the observations
    equal to the threshold together never exceed the number of rows. *)
Theorem C6_strictly_below (s : session) :
  (forall w, In w (weather s) -> binary64 (y w) = true) ->
  - 2 ^ 24 <= fst (temp_range (input s)) ->
  snd (temp_range (input s)) <= 2 ^ 24 ->
  (weather s <> [] -> exists rows, fst (table_weather s) = Ok rows)
  /\ forall (rows : list table_row) (r : table_row),
  fst (table_weather s) = Ok rows -> In r rows ->
  Days_Below r
  = Z.of_nat (List.length (filter (fun w => below (y w) (Temp r)) (weather s)))
  /\ (forall w, In w (weather s) ->
        equal_to (y w) (Temp r) = true -> lt_int (y w) (Temp r) = false)
  /\ Days_Below r
     + Z.of_nat (List.length (filter (fun w => equal_to (y w) (Temp r)) (weather s)))
     <= shape0 (weather s).
Proof.
  intros Hv Hlow Hhigh. split; [apply table_weather_returns|].
  intros rows r Hrun Hin. destruct (table_weather_In s rows r Hrun Hin) as [Ht Hr].
  assert (Hbound : Z.abs (Temp r) < 2 ^ 53).
  { assert (2 ^ 24 < 2 ^ 53) by (apply Z.pow_lt_mono_r; lia). lia. }
  assert (Hd : Days_Below r
               = Z.of_nat (List.length
                   (filter (fun w => below (y w) (Temp r)) (weather s)))).
  { rewrite <- (count_below_values _ _ Hv Hbound). rewrite Hr at 1. reflexivity. }
  split; [exact Hd|]. split.
  - intros w Hw He. rewrite (lt_int_below _ _ (Hv w Hw) Hbound).
    now apply equal_not_below.
  - rewrite Hd. unfold shape0. rewrite <- Nat2Z.inj_add. apply inj_le.
    apply filter_disjoint_length. intros w _. apply equal_not_below.
Qed.

Lemma C6_strictly_below_witness :
  let s := session_of [of_int 9; of_int 10; div (of_int 19) (of_int 2);
                       of_int 11; of_int 10] 10 10 in
  let r := {| Temp := 10; Days_Below := 2;
              Proportion_Below := div (of_int 2) (of_int 5) |} in
  let s0 := session_of [of_int 10; of_int 10; of_int 10] 10 10 in
  let r0 := {| Temp := 10; Days_Below := 0; Proportion_Below := S754_zero false |} in
  fst (table_weather s) = Ok [r]
  /\ Z.of_nat (List.length (filter (fun w => below (y w) 10) (weather s))) = 2
  /\ Days_Below r + 2 <= 5
  /\ fst (table_weather s0) = Ok [r0]
  /\ Z.of_nat (List.length (filter (fun w => below (y w) 10) (weather s0))) = 0.
Proof.
  intros s r s0 r0.
  assert (Hrun : fst (table_weather s) = Ok [r]) by (vm_compute; reflexivity).
  assert (Hrun0 : fst (table_weather s0) = Ok [r0]) by (vm_compute; reflexivity).
  assert (Hv : forall w, In w (weather s) -> binary64 (y w) = true).
  { intros w Hw. cbn in Hw.
    repeat (destruct Hw as [<-|Hw]; [vm_compute; reflexivity|]). contradiction. }
  assert (Hv0 : forall w, In w (weather s0) -> binary64 (y w) = true).
  { intros w Hw. cbn in Hw.
    repeat (destruct Hw as [<-|Hw]; [vm_compute; reflexivity|]). contradiction. }
  assert (Hlow : - 2 ^ 24 <= 10) by (apply Z.leb_le; vm_compute; reflexivity).
  assert (Hhigh : 10 <= 2 ^ 24) by (apply Z.leb_le; vm_compute; reflexivity).
  destruct (proj2 (C6_strictly_below s Hv Hlow Hhigh) [r] r Hrun (or_introl eq_refl))
    as (H1 & _ & H3).
  destruct (proj2 (C6_strictly_below s0 Hv0 Hlow Hhigh) [r0] r0 Hrun0
              (or_introl eq_refl)) as (H4 & _).
  split; [exact Hrun|]. split; [exact (eq_sym H1)|]. split; [exact H3|].
  split; [exact Hrun0|exact (eq_sym H4)].
Defined.

(** C7: every series with at least one row gets a table, and within one
    returned table a row with the lower threshold never has the higher
    count. *)
Theorem C7_count_monotone (s : session) :
  (weather s <> [] -> exists rows, fst (table_weather s) = Ok rows)
  /\ forall (rows : list table_row) (r1 r2 : table_row),
  fst (table_weather s) = Ok rows -> In r1 rows -> In r2 rows ->
  Temp r1 < Temp r2 -> Days_Below r1 <= Days_Below r2.
Proof.
  split; [apply table_weather_returns|].
  intros rows r1 r2 Hrun H1 H2 Ht.
  destruct (table_weather_In s rows r1 Hrun H1) as [_ E1].
  destruct (table_weather_In s rows r2 Hrun H2) as [_ E2].
  rewrite E1, E2. cbn [Days_Below shown_row]. apply count_below_mono. lia.
Qed.

Lemma C7_count_monotone_witness :
  let s := session_of [of_int 5; of_int 15; of_int 25] 15 16 in
  let r1 := {| Temp := 15; Days_Below := 1;
               Proportion_Below := div (of_int 333) (of_int 1000) |} in
  let r2 := {| Temp := 16; Days_Below := 2;
               Proportion_Below := div (of_int 667) (of_int 1000) |} in
  fst (table_weather s) = Ok [r2; r1] /\ Days_Below r1 <= Days_Below r2.
Proof.
  intros s r1 r2.
  assert (Hrun : fst (table_weather s) = Ok [r2; r1]) by (vm_compute; reflexivity).
  split; [exact Hrun|].
  apply (proj2 (C7_count_monotone s) [r2; r1] r1 r2 Hrun).
  - right. left. reflexivity.
  - left. reflexivity.
  - cbn. lia.
Defined.

Lemma shown_rows_column {R} (col : R -> float) (df : list R) (ts : list Z) :
  map (shown_row col df) ts = map (shown_row (fun v => v) (map col df)) ts.
Proof. apply map_ext. intros t. apply shown_row_column. Qed.

Lemma table_weather_reads_y_and_range (s s' : session) :
  map y (weather s') = map y (weather s) ->
  temp_range (input s') = temp_range (input s) ->
  fst (table_weather s') = fst (table_weather s).
Proof.
  intros Hy Hr.
  destruct (Z.lt_ge_cases (snd (temp_range (input s))) (fst (temp_range (input s))))
    as [Hlt|Hge].
  - rewrite !table_weather_empty_range by (rewrite ?Hr; assumption). reflexivity.
  - destruct (weather s) as [|w df] eqn:Hw.
    + apply map_eq_nil in Hy.
      rewrite !table_weather_no_rows by (rewrite ?Hr; assumption). reflexivity.
    + assert (Hne' : weather s' <> []) by (intros E; rewrite E in Hy; discriminate).
      rewrite (table_weather_run s') by exact Hne'.
      rewrite (table_weather_run s) by (rewrite Hw; discriminate).
      cbn [fst]. rewrite Hr, (shown_rows_column y (weather s')), Hy, Hw.
      now rewrite <- shown_rows_column.
Qed.

Lemma plot_weather_keeps_y (s : session) :
  map y (weather (snd (plot_weather s))) = map y (weather s)
  /\ input (snd (plot_weather s)) = input s.
Proof.
  unfold plot_weather, mbind, get_input, get_weather, req, set_weather.
  destruct (temp (input s)); cbn; [|split; reflexivity].
  split; [|reflexivity]. rewrite map_map. reflexivity.
Qed.

Lemma forecast_keeps_y (predict : prophet -> Z -> list forecast_row) (s : session) :
  map y (weather (snd (forecast predict s))) = map y (weather s)
  /\ input (snd (forecast predict s)) = input s.
Proof.
  destruct (Z.le_gt_cases (shape0 (weather s)) 364) as [Hc|Ho].
  - rewrite forecast_closed by exact Hc. cbn. unfold naive. now rewrite map_map.
  - rewrite forecast_open by lia. cbn. unfold naive. now rewrite map_map.
Qed.

(** C8: [table_weather] leaves the session as it found it, and what it
    returns is determined by the [y] column and the slider range alone: two
    sessions that agree on these get the same result, table or exception,
    whatever else differs (the [cold] column [plot_weather] wrote, the zone
    [forecast] dropped from [ds], the fit history); identical inputs give
    identical results. *)
Theorem C8_table_weather_pure (s : session) :
  snd (table_weather s) = s
  /\ (forall s' : session,
        map y (weather s') = map y (weather s) ->
        temp_range (input s') = temp_range (input s) ->
        fst (table_weather s') = fst (table_weather s))
  /\ (forall predict : prophet -> Z -> list forecast_row,
        fst (table_weather (snd (plot_weather s))) = fst (table_weather s)
        /\ fst (table_weather (snd (forecast predict s))) = fst (table_weather s)).
Proof.
  split; [apply table_weather_session|]. split.
  - intros s'. apply table_weather_reads_y_and_range.
  - intros predict. split; apply table_weather_reads_y_and_range.
    + apply plot_weather_keeps_y.
    + now rewrite (proj2 (plot_weather_keeps_y s)).
    + apply forecast_keeps_y.
    + now rewrite (proj2 (forecast_keeps_y predict s)).
Qed.

Lemma C8_table_weather_pure_witness :
  let s := session_of [of_int 5; of_int 15; of_int 25] 10 12 in
  let s' := {| input := {| temp_range := (10, 12); temp := None; units := celsius;
                           forecast_years := 3; forecast_trend := linear |};
               weather := [ {| ds := {| seconds := 86400; tz_aware := false |};
                               y := of_int 5; cold := Some 1 |};
                            {| ds := {| seconds := 172800; tz_aware := false |};
                               y := of_int 15; cold := Some 0 |};
                            {| ds := {| seconds := 259200; tz_aware := false |};
                               y := of_int 25; cold := Some 0 |} ];
               fitted := [[]] |} in
  snd (table_weather s) = s /\ fst (table_weather s') = fst (table_weather s).
Proof.
  intros s s'. split.
  - apply (proj1 (C8_table_weather_pure s)).
  - apply (proj1 (proj2 (C8_table_weather_pure s)) s'); reflexivity.
Defined.

(** The other server functions do write to the session. *)
Lemma plot_weather_writes_cold :
  snd (plot_weather (session_of [of_int 3] 0 15)) <> session_of [of_int 3] 0 15.
Proof. vm_compute. discriminate. Qed.

Lemma plot_forecast_session (predict : prophet -> Z -> list forecast_row) (s : session) :
  snd (plot_forecast predict s) = snd (forecast predict s).
Proof.
  unfold plot_forecast, mbind. destruct (forecast predict s) as [[a|e] s1]; reflexivity.
Qed.

Lemma table_forecast_session (predict : prophet -> Z -> list forecast_row) (s : session) :
  snd (table_forecast predict s) = snd (forecast predict s).
Proof.
  unfold table_forecast, mbind, get_input, lift, ret.
  destruct (forecast predict s) as [[a|e] s1]; [|reflexivity].
  destruct (forecast_loop _ _ _); reflexivity.
Qed.

(** C9: with 364 rows or fewer, [forecast] is cancelled by [req] before any
    model exists: it, the forecast plot and the forecast table all end on the
    silent exception and the record of fits is unchanged; with more than 364
    rows it fits on exactly those rows and returns. So every history that a
    run of [forecast], [plot_forecast] or [table_forecast] adds to the record
    of fits has more than 364 rows. *)
Theorem C9_forecast_gate (predict : prophet -> Z -> list forecast_row) (s : session) :
  (shape0 (weather s) <= 364 ->
     fst (forecast predict s) = Raise SilentException
     /\ fst (plot_forecast predict s) = Raise SilentException
     /\ fst (table_forecast predict s) = Raise SilentException
     /\ fitted (snd (forecast predict s)) = fitted s)
  /\ (364 < shape0 (weather s) ->
      exists m df,
        fst (forecast predict s) = Ok (m, df)
        /\ df = predict m (forecast_years (input s) * 365)
        /\ shape0 (m_history m) = shape0 (weather s)
        /\ fitted (snd (forecast predict s)) = m_history m :: fitted s)
  /\ (forall h,
        In h (fitted (snd (forecast predict s)))
        \/ In h (fitted (snd (plot_forecast predict s)))
        \/ In h (fitted (snd (table_forecast predict s))) ->
        In h (fitted s) \/ 364 < shape0 h).
Proof.
  split; [|split].
  - intros Hc. rewrite plot_forecast_closed, table_forecast_closed by exact Hc.
    rewrite forecast_closed by exact Hc. repeat split; reflexivity.
  - intros Ho. rewrite forecast_open by exact Ho. do 2 eexists.
    split; [reflexivity|]. split; [reflexivity|]. split; [|reflexivity].
    cbn [m_history]. apply shape0_naive.
  - intros h. rewrite plot_forecast_session, table_forecast_session.
    intros Hin. assert (H : In h (fitted (snd (forecast predict s)))) by tauto.
    clear Hin. destruct (Z.le_gt_cases (shape0 (weather s)) 364) as [Hc|Ho].
    + rewrite forecast_closed in H by exact Hc. now left.
    + rewrite forecast_open in H by lia. cbn [snd fitted] in H.
      destruct H as [<-|H]; [right|now left]. rewrite shape0_naive. lia.
Qed.

Lemma C9_forecast_gate_witness :
  let predict := fun (m : prophet) (periods : Z) =>
                   repeat {| f_ds := {| seconds := 0; tz_aware := false |};
                             yhat := of_int 40; yhat_lower := of_int 30;
                             yhat_upper := of_int 50 |} (Z.to_nat periods) in
  fst (table_forecast predict (session_of (repeat (of_int 50) 364) 0 15))
  = Raise SilentException
  /\ exists m df,
       fst (forecast predict (session_of (repeat (of_int 50) 365) 0 15)) = Ok (m, df)
       /\ shape0 (m_history m) = 365.
Proof.
  intros predict. split.
  - apply (proj1 (C9_forecast_gate predict (session_of (repeat (of_int 50) 364) 0 15))).
    apply Z.leb_le. vm_compute. reflexivity.
  - destruct (proj1 (proj2 (C9_forecast_gate predict
                              (session_of (repeat (of_int 50) 365) 0 15))))
      as (m & df & H1 & _ & H3 & _).
    + apply Z.ltb_lt. vm_compute. reflexivity.
    + exists m, df. split; [exact H1|]. rewrite H3. vm_compute. reflexivity.
Defined.

(** ** The preprocessing script *)

Lemma traverse_gt_int (cs : list raw_city) :
  ProcessData.traverse (ProcessData.gt_int 9999)
    (map (fun c => ProcessData.Int (rc_population c)) cs)
  = inr (map big_enough cs).
Proof.
  induction cs as [|c cs IH]; [reflexivity|].
  cbn [map ProcessData.traverse ProcessData.gt_int ProcessData.rbind].
  rewrite IH. reflexivity.
Qed.

Lemma keep_filter {A B} (p : A -> bool) (f : A -> B) (l : list A) :
  ProcessData.keep (map p l) (map f l) = map f (filter p l).
Proof.
  induction l as [|a l IH]; [reflexivity|]. cbn [map ProcessData.keep filter].
  destruct (p a); cbn [map]; now rewrite IH.
Qed.

Lemma add_scalar_names (l : list raw_city) (sep : string) :
  ProcessData.add_scalar (map (fun c => ProcessData.Str (rc_city c)) l) sep
  = inr (map (fun c => ProcessData.Str (rc_city c ++ sep)) l).
Proof.
  unfold ProcessData.add_scalar.
  induction l as [|c l IH]; [reflexivity|].
  cbn [map ProcessData.traverse ProcessData.add ProcessData.rbind].
  rewrite IH. reflexivity.
Qed.

Lemma add_columns_names (l : list raw_city) (sep : string) :
  ProcessData.add_columns
    (map (fun c => ProcessData.Str (rc_city c ++ sep)) l)
    (map (fun c => ProcessData.Str (rc_state c)) l)
  = inr (map (fun c => ProcessData.Str ((rc_city c ++ sep) ++ rc_state c)) l).
Proof.
  induction l as [|c l IH]; [reflexivity|].
  cbn [map ProcessData.add_columns ProcessData.add ProcessData.rbind].
  rewrite IH. reflexivity.
Qed.

(** C10: on a raw frame that holds, under the six names the script reads,
    the fields of the cities [cs] (next to whatever other columns), the
    script writes the frame of exactly the three columns [city_state], [lat],
    [lng], in this order, with one row for each city of [cs] whose
    population exceeds 9999, in the order of [cs]; [city_state] is the city
    name, then [", "], then the state name.  So a city is in the output
    exactly when it is in the input with a population above 9999. *)
Theorem C10_city_lookup_table
    (df : ProcessData.frame) (cs : list raw_city) (county : list ProcessData.cell) :
  ProcessData.column df "city" = inr (map (fun c => ProcessData.Str (rc_city c)) cs) ->
  ProcessData.column df "county_name" = inr county ->
  ProcessData.column df "state_name"
  = inr (map (fun c => ProcessData.Str (rc_state c)) cs) ->
  ProcessData.column df "population"
  = inr (map (fun c => ProcessData.Int (rc_population c)) cs) ->
  ProcessData.column df "lat" = inr (map (fun c => ProcessData.Flt (rc_lat c)) cs) ->
  ProcessData.column df "lng" = inr (map (fun c => ProcessData.Flt (rc_lng c)) cs) ->
  ProcessData.process_data df
  = inr [ ("city_state"%string,
           map (fun c => ProcessData.Str (city_state c)) (filter big_enough cs));
          ("lat"%string,
           map (fun c => ProcessData.Flt (rc_lat c)) (filter big_enough cs));
          ("lng"%string,
           map (fun c => ProcessData.Flt (rc_lng c)) (filter big_enough cs)) ]
  /\ (forall c, In c (filter big_enough cs) <-> In c cs /\ 9999 < rc_population c).
Proof.
  intros Hcity Hcounty Hstate Hpop Hlat Hlng. split.
  - unfold ProcessData.process_data, ProcessData.select.
    cbn [ProcessData.traverse].
    rewrite Hcity, Hcounty, Hstate, Hpop, Hlat, Hlng.
    cbn [ProcessData.rbind ProcessData.column String.eqb Ascii.eqb Bool.eqb].
    rewrite traverse_gt_int. cbn [ProcessData.rbind ProcessData.where_ map fst snd].
    rewrite !keep_filter.
    cbn [ProcessData.rbind ProcessData.column String.eqb Ascii.eqb Bool.eqb].
    rewrite add_scalar_names. cbn [ProcessData.rbind].
    rewrite add_columns_names. cbn [ProcessData.rbind ProcessData.assign
      ProcessData.traverse ProcessData.column String.eqb Ascii.eqb Bool.eqb].
    reflexivity.
  - intros c. rewrite filter_In. unfold big_enough. rewrite Z.ltb_lt. reflexivity.
Qed.

Lemma C10_city_lookup_table_witness :
  let lat1 := div (of_int 401106) (of_int 10000) in
  let lng1 := div (of_int (-882073)) (of_int 10000) in
  let lat2 := div (of_int 385) (of_int 10) in
  let lng2 := div (of_int (-901)) (of_int 10) in
  let df :=
    [ ("city", [ProcessData.Str "Urbana"; ProcessData.Str "Tolono";
                ProcessData.Str "Troy"]);
      ("city_ascii", [ProcessData.Str "Urbana"; ProcessData.Str "Tolono";
                      ProcessData.Str "Troy"]);
      ("state_id", [ProcessData.Str "IL"; ProcessData.Str "IL"; ProcessData.Str "IL"]);
      ("state_name", [ProcessData.Str "Illinois"; ProcessData.Str "Illinois";
                      ProcessData.Str "Illinois"]);
      ("county_name", [ProcessData.Str "Champaign"; ProcessData.Missing;
                       ProcessData.Str "Madison"]);
      ("lat", [ProcessData.Flt lat1; ProcessData.Flt lat1; ProcessData.Flt lat2]);
      ("lng", [ProcessData.Flt lng1; ProcessData.Flt lng1; ProcessData.Flt lng2]);
      ("population", [ProcessData.Int 38336; ProcessData.Int 9999;
                      ProcessData.Int 10000]) ]%string in
  ProcessData.process_data df
  = inr [ ("city_state", [ProcessData.Str "Urbana, Illinois";
                          ProcessData.Str "Troy, Illinois"]);
          ("lat", [ProcessData.Flt lat1; ProcessData.Flt lat2]);
          ("lng", [ProcessData.Flt lng1; ProcessData.Flt lng2]) ]%string.
Proof.
  intros lat1 lng1 lat2 lng2 df.
  exact (proj1
    (C10_city_lookup_table df
       [ {| rc_city := "Urbana"; rc_county := "Champaign"; rc_state := "Illinois";
            rc_population := 38336; rc_lat := lat1; rc_lng := lng1 |};
         {| rc_city := "Tolono"; rc_county := ""; rc_state := "Illinois";
            rc_population := 9999; rc_lat := lat1; rc_lng := lng1 |};
         {| rc_city := "Troy"; rc_county := "Madison"; rc_state := "Illinois";
            rc_population := 10000; rc_lat := lat2; rc_lng := lng2 |} ]
       [ProcessData.Str "Champaign"; ProcessData.Missing; ProcessData.Str "Madison"]
       eq_refl eq_refl eq_refl eq_refl eq_refl eq_refl)).
Defined.

(** ** Further properties of the tables *)

Lemma table_forecast_run (predict : prophet -> Z -> list forecast_row) (s : session) :
  364 < shape0 (weather s) ->
  predict {| m_growth := forecast_trend (input s); m_history := naive (weather s) |}
          (forecast_years (input s) * 365) <> [] ->
  table_forecast predict s
  = (Ok (map (shown_row yhat_lower
                (predict {| m_growth := forecast_trend (input s);
                            m_history := naive (weather s) |}
                         (forecast_years (input s) * 365)))
           (rev (range (fst (temp_range (input s)))
                       (snd (temp_range (input s)) + 1)))),
     {| input := input s; weather := naive (weather s);
        fitted := naive (weather s) :: fitted s |}).
Proof.
  intros Ho Hne. unfold table_forecast, mbind. rewrite forecast_open by exact Ho.
  cbn [fst snd get_input input lift ret].
  rewrite forecast_loop_ok by exact Hne. cbn [app].
  rewrite sort_values_range, round_raw_rows by reflexivity. reflexivity.
Qed.

(** X1: once the gate is open and the forecast frame has a row, the forecast
    table is returned with one row per integer of the slider range, the
    thresholds running from high down to low. *)
Theorem X1_forecast_table_shape
    (predict : prophet -> Z -> list forecast_row) (s : session) :
  364 < shape0 (weather s) ->
  predict {| m_growth := forecast_trend (input s); m_history := naive (weather s) |}
          (forecast_years (input s) * 365) <> [] ->
  exists rows,
    fst (table_forecast predict s) = Ok rows
    /\ map Temp rows
       = rev (range (fst (temp_range (input s))) (snd (temp_range (input s)) + 1))
    /\ strictly_descending (map Temp rows)
    /\ Z.of_nat (List.length rows)
       = Z.max 0 (snd (temp_range (input s)) - fst (temp_range (input s)) + 1).
Proof.
  intros Ho Hne. rewrite table_forecast_run by assumption. eexists.
  split; [reflexivity|]. rewrite shown_rows_Temp.
  split; [reflexivity|]. split; [apply rev_range_descending|].
  rewrite length_map, length_rev, range_length. lia.
Qed.

Lemma X1_forecast_table_shape_witness :
  let predict := fun (m : prophet) (periods : Z) =>
                   repeat {| f_ds := {| seconds := 0; tz_aware := false |};
                             yhat := of_int 40; yhat_lower := of_int 30;
                             yhat_upper := of_int 50 |} (Z.to_nat periods) in
  exists rows,
    fst (table_forecast predict (session_of (repeat (of_int 50) 365) 29 31)) = Ok rows
    /\ map Temp rows = [31; 30; 29]
    /\ strictly_descending (map Temp rows)
    /\ Z.of_nat (List.length rows) = 3.
Proof.
  intros predict.
  apply (X1_forecast_table_shape predict (session_of (repeat (of_int 50) 365) 29 31)).
  - apply Z.ltb_lt. vm_compute. reflexivity.
  - vm_compute. discriminate.
Defined.

(** X2: in a returned forecast table the count of a row is the number of
    forecast rows whose lower bound is strictly below the threshold; it lies
    between 0 and the number of forecast rows, and it never decreases as the
    threshold rises. *)
Theorem X2_forecast_table_counts
    (predict : prophet -> Z -> list forecast_row) (s : session)
    (rows : list table_row) :
  fst (table_forecast predict s) = Ok rows ->
  exists m df,
    fst (forecast predict s) = Ok (m, df)
    /\ (forall r, In r rows ->
          Days_Below r = count_below yhat_lower df (Temp r)
          /\ 0 <= Days_Below r <= shape0 df)
    /\ (forall r1 r2, In r1 rows -> In r2 rows ->
          Temp r1 < Temp r2 -> Days_Below r1 <= Days_Below r2).
Proof.
  intros Hrun. destruct (table_forecast_rows predict s rows Hrun) as (m & df & Hf & ->).
  exists m, df. split; [exact Hf|]. split.
  - intros r Hin. apply in_map_iff in Hin. destruct Hin as (t & <- & _).
    cbn [Days_Below Temp shown_row]. split; [reflexivity|apply count_below_bounds].
  - intros r1 r2 H1 H2 Ht.
    apply in_map_iff in H1. destruct H1 as (t1 & <- & _).
    apply in_map_iff in H2. destruct H2 as (t2 & <- & _).
    cbn [Days_Below Temp shown_row] in *. apply count_below_mono. lia.
Qed.

Lemma X2_forecast_table_counts_witness :
  let predict := fun (m : prophet) (periods : Z) =>
                   [ {| f_ds := {| seconds := 0; tz_aware := false |};
                        yhat := of_int 12; yhat_lower := of_int 5;
                        yhat_upper := of_int 20 |};
                     {| f_ds := {| seconds := 86400; tz_aware := false |};
                        yhat := of_int 22; yhat_lower := of_int 15;
                        yhat_upper := of_int 30 |} ] in
  let r1 := {| Temp := 15; Days_Below := 1;
               Proportion_Below := div (of_int 1) (of_int 2) |} in
  let r2 := {| Temp := 16; Days_Below := 2;
               Proportion_Below := of_int 1 |} in
  exists m df,
    fst (forecast predict (session_of (repeat (of_int 50) 365) 15 16)) = Ok (m, df)
    /\ (forall r, In r [r2; r1] ->
          Days_Below r = count_below yhat_lower df (Temp r)
          /\ 0 <= Days_Below r <= shape0 df)
    /\ (forall x1 x2, In x1 [r2; r1] -> In x2 [r2; r1] ->
          Temp x1 < Temp x2 -> Days_Below x1 <= Days_Below x2).
Proof.
  intros predict r1 r2.
  apply (X2_forecast_table_counts predict
           (session_of (repeat (of_int 50) 365) 15 16) [r2; r1]).
  vm_compute. reflexivity.
Defined.

(** X3: the forecast table never divides by zero.  As long as a forecast
    frame that is handed back has at least one row, [table_forecast] does
    not end in [ZeroDivisionError], whatever the series and the slider
    range; on a session without observations, where [table_weather] raises
    [ZeroDivisionError] for a range with low <= high, [table_forecast] is
    cancelled by the gate before any division. *)
Theorem X3_forecast_table_never_divides_by_zero
    (predict : prophet -> Z -> list forecast_row) (s : session) :
  (364 < shape0 (weather s) ->
   predict {| m_growth := forecast_trend (input s); m_history := naive (weather s) |}
           (forecast_years (input s) * 365) <> []) ->
  fst (table_forecast predict s) <> Raise ZeroDivisionError
  /\ (weather s = [] ->
      fst (table_forecast predict s) = Raise SilentException
      /\ (fst (temp_range (input s)) <= snd (temp_range (input s)) ->
          fst (table_weather s) = Raise ZeroDivisionError)).
Proof.
  intros Hne. split.
  - destruct (Z.le_gt_cases (shape0 (weather s)) 364) as [Hc|Ho].
    + rewrite table_forecast_closed by exact Hc. discriminate.
    + rewrite table_forecast_run by (try apply Hne; lia). discriminate.
  - intros Hnil. split.
    + rewrite table_forecast_closed; [reflexivity|]. rewrite Hnil. cbn. lia.
    + intros Hr. now rewrite table_weather_no_rows.
Qed.

Lemma X3_forecast_table_never_divides_by_zero_witness :
  let predict := fun (m : prophet) (periods : Z) =>
                   repeat {| f_ds := {| seconds := 0; tz_aware := false |};
                             yhat := of_int 40; yhat_lower := of_int 30;
                             yhat_upper := of_int 50 |} (Z.to_nat periods) in
  fst (table_forecast predict (session_of (repeat (of_int 50) 365) 0 15))
  <> Raise ZeroDivisionError
  /\ fst (table_forecast predict (session_of [] 0 15)) = Raise SilentException
  /\ fst (table_weather (session_of [] 0 15)) = Raise ZeroDivisionError.
Proof.
  intros predict. split.
  - apply (proj1 (X3_forecast_table_never_divides_by_zero predict
                    (session_of (repeat (of_int 50) 365) 0 15)
                    ltac:(intros _; vm_compute; discriminate))).
  - destruct (proj2 (X3_forecast_table_never_divides_by_zero predict
                       (session_of [] 0 15)
                       ltac:(intros H; vm_compute in H; discriminate)) eq_refl)
      as (H1 & H2).
    split; [exact H1|]. apply H2. cbn. lia.
Defined.

Lemma of_int_small (p : positive) :
  Zpos p < 2 ^ 53 ->
  exists m e, of_int (Zpos p) = S754_finite false m e /\ 2 ^ 52 <= Zpos m < 2 ^ 53.
Proof.
  intros Hp. pose proof (digits2_pos_bounds p) as Hb.
  set (d := Zpos (digits2_pos p)) in *.
  assert (Hd : d <= 53).
  { destruct (Z.le_gt_cases d 53) as [H|H]; [exact H|].
    assert (2 ^ 53 <= 2 ^ (d - 1)) by (apply Z.pow_le_mono_r; lia). lia. }
  unfold of_int, prec, emax, binary_normalize. rewrite binary_round_small by exact Hd.
  fold d. unfold packed. destruct (Z.leb_spec (d - 53) 971) as [_|H]; [|lia].
  assert (HW : 0 < 2 ^ (53 - d)) by (apply Z.pow_pos_nonneg; lia).
  assert (H1 : 2 ^ (d - 1) * 2 ^ (53 - d) = 2 ^ 52).
  { rewrite <- Z.pow_add_r by lia. f_equal. lia. }
  assert (H2 : 2 ^ d * 2 ^ (53 - d) = 2 ^ 53).
  { rewrite <- Z.pow_add_r by lia. f_equal. lia. }
  do 2 eexists. split; [reflexivity|]. rewrite Z2Pos.id by nia. nia.
Qed.

Lemma div_self (m : positive) (e : Z) :
  2 ^ 52 <= Zpos m < 2 ^ 53 ->
  div (S754_finite false m e) (S754_finite false m e) = of_int 1.
Proof.
  intros Hm.
  assert (Hd : Zdigits2 (Zpos m) = 53) by (apply Zdigits2_unique; [lia|exact Hm]).
  unfold div, SFdiv, SFdiv_core_binary. rewrite Hd.
  replace (53 + e - (53 + e)) with 0 by lia. rewrite Z.sub_diag.
  change (Z.min (fexp prec emax 0) 0) with (-53).
  change (0 - -53) with 53. cbv iota beta. rewrite Z.shiftl_mul_pow2 by lia.
  destruct (Z.div_eucl (Zpos m * 2 ^ 53) (Zpos m)) as [q r] eqn:E.
  assert (Hq : q = 2 ^ 53).
  { change q with (fst (q, r)). rewrite <- E. change (fst (Z.div_eucl ?a ?b)) with (a / b).
    rewrite Z.mul_comm. apply Z.div_mul. lia. }
  assert (Hr : r = 0).
  { change r with (snd (q, r)). rewrite <- E.
    change (snd (Z.div_eucl ?a ?b)) with (a mod b).
    rewrite Z.mul_comm. apply Z.mod_mul. lia. }
  subst q r. unfold new_location.
  destruct (Z.even (Zpos m)); vm_compute; reflexivity.
Qed.

Lemma div_of_int_self (n : Z) :
  0 < n < 2 ^ 53 -> div (of_int n) (of_int n) = of_int 1.
Proof.
  intros Hn. destruct n as [|p|p]; try lia.
  destruct (of_int_small p ltac:(lia)) as (m & e & -> & Hm). now apply div_self.
Qed.

Lemma table_weather_In_nonempty (s : session) (rows : list table_row) (r : table_row) :
  fst (table_weather s) = Ok rows -> In r rows -> weather s <> [].
Proof.
  intros Hrun Hin Hnil.
  destruct (Z.lt_ge_cases (snd (temp_range (input s))) (fst (temp_range (input s))))
    as [Hlt|Hge].
  - rewrite table_weather_empty_range in Hrun by exact Hlt. cbn in Hrun.
    inversion Hrun; subst. contradiction.
  - rewrite table_weather_no_rows in Hrun by assumption. discriminate.
Qed.

(** X4: every row of a returned weather table has a threshold inside the
    slider range and a count between 0 and the number of rows of the series;
    a count of 0 comes with the proportion +0.0, and a count equal to the
    number of rows (fewer than 2^53) with the proportion 1.0: at the two ends
    the rounding loses nothing. *)
Theorem X4_weather_table_bounds
    (s : session) (rows : list table_row) (r : table_row) :
  fst (table_weather s) = Ok rows -> In r rows ->
  fst (temp_range (input s)) <= Temp r <= snd (temp_range (input s))
  /\ 0 <= Days_Below r <= shape0 (weather s)
  /\ (Days_Below r = 0 -> Proportion_Below r = S754_zero false)
  /\ (Days_Below r = shape0 (weather s) -> shape0 (weather s) < 2 ^ 53 ->
      Proportion_Below r = of_int 1).
Proof.
  intros Hrun Hin. destruct (table_weather_In s rows r Hrun Hin) as [Ht Hr].
  pose proof (shape0_pos _ (table_weather_In_nonempty s rows r Hrun Hin)) as Hpos.
  pose proof (count_below_bounds y (weather s) (Temp r)) as Hb.
  assert (Hd : Days_Below r = count_below y (weather s) (Temp r))
    by (rewrite Hr at 1; reflexivity).
  split; [exact Ht|]. split; [lia|]. split.
  - intros H0. rewrite Hr. cbn [Proportion_Below shown_row]. rewrite <- Hd, H0.
    unfold shape0 in *. destruct (Z.of_nat (List.length (weather s))) as [|p|p]; try lia.
    change (of_int 0) with (S754_zero false). rewrite div_zero_of_pos.
    vm_compute. reflexivity.
  - intros Hall Hsmall. rewrite Hr. cbn [Proportion_Below shown_row].
    rewrite <- Hd, Hall, div_of_int_self by (unfold shape0 in *; lia).
    vm_compute. reflexivity.
Qed.

Lemma X4_weather_table_bounds_witness :
  let s := session_of [of_int 5; of_int 15; of_int 25] 29 30 in
  let r := {| Temp := 30; Days_Below := 3; Proportion_Below := of_int 1 |} in
  let r' := {| Temp := 29; Days_Below := 3; Proportion_Below := of_int 1 |} in
  fst (table_weather s) = Ok [r; r']
  /\ 29 <= Temp r <= 30 /\ 0 <= Days_Below r <= 3
  /\ (Days_Below r = 3 -> 3 < 2 ^ 53 -> Proportion_Below r = of_int 1).
Proof.
  intros s r r'.
  assert (Hrun : fst (table_weather s) = Ok [r; r']) by (vm_compute; reflexivity).
  split; [exact Hrun|].
  destruct (X4_weather_table_bounds s [r; r'] r Hrun (or_introl eq_refl))
    as (H1 & H2 & _ & H4).
  split; [exact H1|]. split; [exact H2 | exact H4].
Defined.

Lemma count_below_permutation {R} (col : R -> float) (df df' : list R) (t : Z) :
  Permutation df df' -> count_below col df t = count_below col df' t.
Proof.
  intros HP. unfold count_below. f_equal.
  induction HP as [|a l l' _ IH|a b l|l l' l'' _ IH1 _ IH2]; cbn [filter].
  - reflexivity.
  - destruct (lt_int (col a) t); cbn [List.length]; now rewrite IH.
  - destruct (lt_int (col a) t), (lt_int (col b) t); reflexivity.
  - now rewrite IH1.
Qed.

(** X5: the weather table does not depend on the order of the observations:
    two sessions whose frames hold the same rows in any order, under the same
    slider range, get the same result, table or exception. *)
Theorem X5_weather_table_order_free (s s' : session) :
  Permutation (weather s) (weather s') ->
  temp_range (input s') = temp_range (input s) ->
  fst (table_weather s') = fst (table_weather s).
Proof.
  intros HP Hr.
  destruct (Z.lt_ge_cases (snd (temp_range (input s))) (fst (temp_range (input s))))
    as [Hlt|Hge].
  - rewrite !table_weather_empty_range by (rewrite ?Hr; assumption). reflexivity.
  - destruct (weather s) as [|w df] eqn:Hw.
    + apply Permutation_nil in HP.
      rewrite !table_weather_no_rows by (rewrite ?Hr; assumption). reflexivity.
    + assert (Hne' : weather s' <> []).
      { intros E. rewrite E in HP. apply Permutation_sym, Permutation_nil in HP.
        discriminate. }
      rewrite (table_weather_run s') by exact Hne'.
      rewrite (table_weather_run s) by (rewrite Hw; discriminate).
      cbn [fst]. rewrite Hr, Hw. f_equal. apply map_ext. intros t.
      unfold shown_row, shape0.
      rewrite (count_below_permutation y _ _ t HP), (Permutation_length HP).
      reflexivity.
Qed.

Lemma X5_weather_table_order_free_witness :
  fst (table_weather (session_of [of_int 25; of_int 5; of_int 15] 10 20))
  = fst (table_weather (session_of [of_int 5; of_int 15; of_int 25] 10 20)).
Proof.
  apply (X5_weather_table_order_free
           (session_of [of_int 5; of_int 15; of_int 25] 10 20)
           (session_of [of_int 25; of_int 5; of_int 15] 10 20)).
  - cbn [weather session_of map].
    apply Permutation_sym. eapply perm_trans; [apply perm_swap|].
    apply perm_skip. apply perm_swap.
  - reflexivity.
Defined.

(** ** Further properties of the plots and the forecast *)

Lemma plot_weather_run (s : session) (t : Z) :
  temp (input s) = Some t ->
  plot_weather s
  = (Ok tt,
     {| input := input s;
        weather := map (fun r => {| ds := ds r; y := y r;
                                    cold := Some (if lt_int (y r) t then 1 else 0) |})
                       (weather s);
        fitted := fitted s |}).
Proof.
  intros Ht. unfold plot_weather, mbind, get_input, get_weather, req, set_weather.
  rewrite Ht. reflexivity.
Qed.

Lemma cold_rows_count (df : list weather_row) (t : Z) :
  Z.of_nat (List.length
    (cold_rows (map (fun r => {| ds := ds r; y := y r;
                                 cold := Some (if lt_int (y r) t then 1 else 0) |}) df)))
  = count_below y df t.
Proof.
  unfold cold_rows, count_below. f_equal.
  induction df as [|r df IH]; [reflexivity|]. cbn [map filter cold].
  destruct (lt_int (y r) t); cbn [List.length]; now rewrite IH.
Qed.

(** X6: for a series of binary64 values and a plot temperature within
    [-2^24, 2^24], [plot_weather] marks a day cold exactly when the value of
    its minimum is strictly less than the plot temperature, a NaN day never,
    and leaves dates and temperatures alone; the number of points it marks
    cold is the number of such days, and it is the [Days Below] of the table
    row for that temperature. *)
Theorem X6_cold_points_match_table (s : session) (t : Z) :
  temp (input s) = Some t -> Z.abs t <= 2 ^ 24 ->
  (forall w, In w (weather s) -> binary64 (y w) = true) ->
  fst (plot_weather s) = Ok tt
  /\ map y (weather (snd (plot_weather s))) = map y (weather s)
  /\ map ds (weather (snd (plot_weather s))) = map ds (weather s)
  /\ map cold (weather (snd (plot_weather s)))
     = map (fun w => Some (if below (y w) t then 1 else 0)) (weather s)
  /\ (forall r, In r (weather (snd (plot_weather s))) ->
        is_nan (y r) = true -> cold r = Some 0)
  /\ Z.of_nat (List.length (cold_rows (weather (snd (plot_weather s)))))
     = Z.of_nat (List.length (filter (fun w => below (y w) t) (weather s)))
  /\ (forall rows r, fst (table_weather s) = Ok rows -> In r rows -> Temp r = t ->
        Days_Below r
        = Z.of_nat (List.length (cold_rows (weather (snd (plot_weather s)))))).
Proof.
  intros Ht Hb Hv.
  assert (Hbound : Z.abs t < 2 ^ 53).
  { assert (2 ^ 24 < 2 ^ 53) by (apply Z.pow_lt_mono_r; lia). lia. }
  rewrite (plot_weather_run s t Ht). cbn [fst snd weather].
  split; [reflexivity|]. split; [now rewrite map_map|]. split; [now rewrite map_map|].
  split.
  - rewrite map_map. cbn [cold]. apply map_ext_in. intros w Hw.
    now rewrite (lt_int_below _ _ (Hv w Hw) Hbound).
  - split.
    + intros r Hin Hn. apply in_map_iff in Hin. destruct Hin as (w & <- & _).
      cbn [cold y] in *. now rewrite (lt_int_is_nan _ t Hn).
    + split.
      * rewrite cold_rows_count. now apply count_below_values.
      * intros rows r Hrun Hin Hr. rewrite cold_rows_count, <- Hr.
        destruct (table_weather_In s rows r Hrun Hin) as [_ E].
        rewrite E at 1. reflexivity.
Qed.

Lemma X6_cold_points_match_table_witness :
  let s := session_of [of_int 3; nan; of_int 7; of_int 4; of_int 5] 0 15 in
  map cold (weather (snd (plot_weather s)))
  = [Some 1; Some 0; Some 0; Some 1; Some 0]
  /\ Z.of_nat (List.length (cold_rows (weather (snd (plot_weather s))))) = 2.
Proof.
  intros s.
  assert (Hv : forall w, In w (weather s) -> binary64 (y w) = true).
  { intros w Hw. cbn in Hw.
    repeat (destruct Hw as [<-|Hw]; [vm_compute; reflexivity|]). contradiction. }
  assert (Hb : Z.abs 5 <= 2 ^ 24) by (apply Z.leb_le; vm_compute; reflexivity).
  destruct (X6_cold_points_match_table s 5 eq_refl Hb Hv)
    as (_ & _ & _ & Hcold & _ & Hcount & _).
  split; [rewrite Hcold; vm_compute; reflexivity|].
  rewrite Hcount. vm_compute. reflexivity.
Defined.

(** X7: without a plot temperature [plot_weather] is cancelled by [req] and
    writes nothing; with one, drawing the plot a second time leaves the
    session as the first drawing left it. *)
Theorem X7_plot_weather_cancel_and_repeat (s : session) :
  (temp (input s) = None -> plot_weather s = (Raise SilentException, s))
  /\ snd (plot_weather (snd (plot_weather s))) = snd (plot_weather s).
Proof.
  split.
  - intros Hn. unfold plot_weather, mbind, get_input, req. rewrite Hn. reflexivity.
  - destruct (temp (input s)) as [t|] eqn:Ht.
    + rewrite (plot_weather_run s t Ht). cbn [snd].
      rewrite (plot_weather_run _ t) by exact Ht. cbn [snd input weather fitted].
      rewrite map_map. reflexivity.
    + unfold plot_weather, mbind, get_input, req. rewrite Ht. cbn. now rewrite Ht.
Qed.

Lemma X7_plot_weather_cancel_and_repeat_witness :
  let s := {| input := {| temp_range := (0, 15); temp := None; units := fahrenheit;
                          forecast_years := 1; forecast_trend := flat |};
              weather := [ {| ds := {| seconds := 0; tz_aware := true |};
                              y := of_int 3; cold := None |} ];
              fitted := [] |} in
  plot_weather s = (Raise SilentException, s).
Proof.
  intros s. apply (proj1 (X7_plot_weather_cancel_and_repeat s)). reflexivity.
Defined.

Lemma naive_naive (df : list weather_row) : naive (naive df) = naive df.
Proof. unfold naive. rewrite map_map. reflexivity. Qed.

(** X8: [forecast] drops the zone from every date of the shared frame before
    it looks at the number of rows, so the frame is changed even when the
    forecast is cancelled; seconds, temperatures, the cold column and the
    number and order of rows stay, a second run changes the frame no further,
    and the history a fit sees is this zone-free frame. *)
Theorem X8_forecast_strips_zone
    (predict : prophet -> Z -> list forecast_row) (s : session) :
  weather (snd (forecast predict s)) = naive (weather s)
  /\ all_naive (weather (snd (forecast predict s)))
  /\ map (fun r => (seconds (ds r), y r, cold r)) (weather (snd (forecast predict s)))
     = map (fun r => (seconds (ds r), y r, cold r)) (weather s)
  /\ weather (snd (forecast predict (snd (forecast predict s))))
     = weather (snd (forecast predict s))
  /\ input (snd (forecast predict s)) = input s
  /\ (forall m df, fst (forecast predict s) = Ok (m, df) ->
        m_history m = naive (weather s) /\ m_growth m = forecast_trend (input s)).
Proof.
  assert (Hw : forall s0, weather (snd (forecast predict s0)) = naive (weather s0)).
  { intros s0. destruct (Z.le_gt_cases (shape0 (weather s0)) 364) as [Hc|Ho].
    - now rewrite forecast_closed.
    - rewrite forecast_open by lia. reflexivity. }
  split; [apply Hw|]. split.
  - rewrite Hw. intros r Hin. apply in_map_iff in Hin. destruct Hin as (w & <- & _).
    reflexivity.
  - split; [rewrite Hw; unfold naive; now rewrite map_map|].
    split; [now rewrite !Hw, naive_naive|].
    split; [apply forecast_keeps_y|].
    intros m df Hf. destruct (Z.le_gt_cases (shape0 (weather s)) 364) as [Hc|Ho].
    + rewrite forecast_closed in Hf by exact Hc. discriminate.
    + rewrite forecast_open in Hf by lia. cbn [fst] in Hf. inversion Hf. split; reflexivity.
Qed.

Lemma X8_forecast_strips_zone_witness :
  let s := session_of [of_int 3] 0 15 in
  fst (forecast (fun _ _ => []) s) = Raise SilentException
  /\ weather (snd (forecast (fun _ _ => []) s))
     = [ {| ds := {| seconds := 0; tz_aware := false |}; y := of_int 3; cold := None |} ]
  /\ forall m df, fst (forecast (fun _ _ => []) s) = Ok (m, df) ->
       m_history m = naive (weather s) /\ m_growth m = flat.
Proof.
  intros s.
  destruct (X8_forecast_strips_zone (fun _ _ => []) s) as (H1 & _ & _ & _ & _ & H6).
  split; [vm_compute; reflexivity|]. split; [rewrite H1; reflexivity | exact H6].
Defined.

(** ** The frame [get_weather] builds *)

Lemma date_range_left_length (start stop step : Z) :
  Z.of_nat (List.length (Fetch.date_range_left start stop step))
  = Z.max 0 ((stop - start + step - 1) / step).
Proof. unfold Fetch.date_range_left. rewrite length_map, length_seq. lia. Qed.

Lemma date_range_left_nth (start stop step : Z) (i : nat) (t : Z) :
  nth_error (Fetch.date_range_left start stop step) i = Some t ->
  t = start + step * Z.of_nat i.
Proof.
  unfold Fetch.date_range_left. intros H.
  rewrite nth_error_map in H.
  destruct (nth_error (seq 0 _) i) as [k|] eqn:Hk; [|discriminate].
  cbn in H. inversion H; subst t. f_equal. f_equal. f_equal.
  assert (Hi : (i < List.length (seq 0 (Z.to_nat ((stop - start + step - 1) / step))))%nat)
    by (apply nth_error_Some; congruence).
  rewrite length_seq in Hi.
  pose proof (nth_error_nth _ _ 0%nat Hk) as Hn. rewrite seq_nth in Hn by exact Hi.
  cbn in Hn. congruence.
Qed.

Lemma frame_of_spec (dates : list Z) (values : list float) :
  List.length dates = List.length values ->
  List.length (Fetch.frame_of dates values) = List.length values
  /\ map y (Fetch.frame_of dates values) = values
  /\ map (fun r => seconds (ds r)) (Fetch.frame_of dates values) = dates
  /\ forall r, In r (Fetch.frame_of dates values) ->
       tz_aware (ds r) = true /\ cold r = None.
Proof.
  revert values. induction dates as [|d dates IH]; intros [|v values] Hl;
    try discriminate; cbn [Fetch.frame_of List.length map].
  - repeat split; contradiction.
  - destruct (IH values ltac:(cbn in Hl; lia)) as (H1 & H2 & H3 & H4).
    rewrite H1, H2, H3. repeat split; try reflexivity;
      destruct H as [<-|Hin]; try reflexivity; now apply H4.
Qed.

Lemma frame_of_nth (dates : list Z) (values : list float) (i : nat) (r : weather_row) :
  nth_error (Fetch.frame_of dates values) i = Some r ->
  exists t v,
    nth_error dates i = Some t /\ nth_error values i = Some v
    /\ r = {| ds := {| seconds := t; tz_aware := true |}; y := v; cold := None |}.
Proof.
  revert values i. induction dates as [|d dates IH]; intros [|v values] [|i] H;
    cbn [Fetch.frame_of nth_error] in *; try discriminate.
  - inversion H. do 2 eexists. repeat split; reflexivity.
  - now apply IH.
Qed.

Lemma get_weather_inr (d : Fetch.daily) (rows : list weather_row) :
  Fetch.get_weather d = inr rows ->
  List.length rows = List.length (Fetch.ValuesAsNumpy d)
  /\ map y rows = Fetch.ValuesAsNumpy d.
Proof.
  unfold Fetch.get_weather.
  destruct (Nat.eqb_spec
              (List.length (Fetch.date_range_left (Fetch.Time d) (Fetch.TimeEnd d)
                              (Fetch.Interval d)))
              (List.length (Fetch.ValuesAsNumpy d))) as [Hl|Hl]; [|discriminate].
  intros H. inversion H as [E]. destruct (frame_of_spec _ _ Hl) as (Ha & Hb & _).
  split; assumption.
Qed.

(** X9: when [get_weather] returns a frame for a positive interval, the frame
    has one row per delivered value, in order; row [i] carries the date
    [Time + i * Interval] with the UTC zone and no [cold] entry; every date
    lies in [[Time, TimeEnd)], and the dates reach up to [TimeEnd]: one more
    step would not be before it. *)
Theorem X9_get_weather_frame (d : Fetch.daily) (rows : list weather_row) :
  0 < Fetch.Interval d ->
  Fetch.get_weather d = inr rows ->
  List.length rows = List.length (Fetch.ValuesAsNumpy d)
  /\ map y rows = Fetch.ValuesAsNumpy d
  /\ (forall i r, nth_error rows i = Some r ->
        ds r = {| seconds := Fetch.Time d + Fetch.Interval d * Z.of_nat i;
                  tz_aware := true |}
        /\ cold r = None
        /\ Fetch.Time d <= seconds (ds r) < Fetch.TimeEnd d)
  /\ (Fetch.Time d <= Fetch.TimeEnd d ->
      Fetch.TimeEnd d <= Fetch.Time d + Fetch.Interval d * Z.of_nat (List.length rows)).
Proof.
  intros Hstep Hrun. unfold Fetch.get_weather in Hrun.
  destruct (Nat.eqb_spec
              (List.length (Fetch.date_range_left (Fetch.Time d) (Fetch.TimeEnd d)
                              (Fetch.Interval d)))
              (List.length (Fetch.ValuesAsNumpy d))) as [Hl|Hl]; [|discriminate].
  inversion Hrun as [Hrows]. clear Hrun.
  destruct (frame_of_spec _ _ Hl) as (H1 & H2 & _ & _).
  pose proof (date_range_left_length (Fetch.Time d) (Fetch.TimeEnd d) (Fetch.Interval d))
    as Hn.
  set (start := Fetch.Time d) in *. set (stop := Fetch.TimeEnd d) in *.
  set (step := Fetch.Interval d) in *.
  pose proof (Z.mul_div_le (stop - start + step - 1) step Hstep) as Hle.
  pose proof (Z.mod_pos_bound (stop - start + step - 1) step Hstep) as Hmod.
  pose proof (Z.div_mod (stop - start + step - 1) step ltac:(lia)) as Hdm.
  set (q := (stop - start + step - 1) / step) in *.
  split; [exact H1|]. split; [exact H2|]. split.
  - intros i r Hi. destruct (frame_of_nth _ _ _ _ Hi) as (t & v & Ht & _ & ->).
    pose proof (date_range_left_nth _ _ _ _ _ Ht) as Et. subst t.
    assert (Hlt : (i < List.length (Fetch.date_range_left start stop step))%nat)
      by (apply nth_error_Some; congruence).
    cbn [ds cold seconds]. split; [reflexivity|]. split; [reflexivity|]. nia.
  - intros Hord. rewrite H1, <- Hl, Hn. nia.
Qed.

Lemma X9_get_weather_frame_witness :
  let d := {| Fetch.Time := 1640995200; Fetch.TimeEnd := 1641254400;
              Fetch.Interval := 86400;
              Fetch.ValuesAsNumpy := [of_int 20; nan; of_int 18] |} in
  exists rows,
    Fetch.get_weather d = inr rows
    /\ map y rows = [of_int 20; nan; of_int 18]
    /\ map (fun r => seconds (ds r)) rows = [1640995200; 1641081600; 1641168000].
Proof.
  intros d.
  assert (Hrun : Fetch.get_weather d
                 = inr (Fetch.frame_of [1640995200; 1641081600; 1641168000]
                          [of_int 20; nan; of_int 18])) by (vm_compute; reflexivity).
  eexists. split; [exact Hrun|].
  destruct (X9_get_weather_frame d _ ltac:(cbn; lia) Hrun) as (_ & H2 & _).
  split; [exact H2 | reflexivity].
Defined.

(** X10: a positive interval given, [get_weather] fails, with the frame
    constructor's [ValueError], exactly when the number of delivered values
    is not the number of interval steps from [Time] that lie before [TimeEnd];
    when it returns, the forecast on the returned frame is cancelled exactly
    when fewer than 365 values were delivered, and the weather table for a
    range with low <= high raises exactly when none was. *)
Theorem X10_fetch_then_serve
    (predict : prophet -> Z -> list forecast_row) (d : Fetch.daily) (s : session) :
  0 < Fetch.Interval d ->
  (Fetch.get_weather d = inl Fetch.ValueError <->
   Z.of_nat (List.length (Fetch.ValuesAsNumpy d))
   <> Z.max 0 ((Fetch.TimeEnd d - Fetch.Time d + Fetch.Interval d - 1)
               / Fetch.Interval d))
  /\ (Fetch.get_weather d = inr (weather s) ->
      (fst (forecast predict s) = Raise SilentException
       <-> Z.of_nat (List.length (Fetch.ValuesAsNumpy d)) < 365)
      /\ (fst (temp_range (input s)) <= snd (temp_range (input s)) ->
          (fst (table_weather s) = Raise ZeroDivisionError
           <-> Fetch.ValuesAsNumpy d = []))).
Proof.
  intros Hstep. split.
  - unfold Fetch.get_weather.
    rewrite <- date_range_left_length.
    destruct (Nat.eqb_spec
                (List.length (Fetch.date_range_left (Fetch.Time d) (Fetch.TimeEnd d)
                                (Fetch.Interval d)))
                (List.length (Fetch.ValuesAsNumpy d))) as [Hl|Hl].
    + split; [discriminate|]. intros H. lia.
    + split; [intros _; lia|reflexivity].
  - intros Hrun. destruct (get_weather_inr d _ Hrun) as (Hlen & Hy).
    split.
    + destruct (Z.le_gt_cases (shape0 (weather s)) 364) as [Hc|Ho].
      * rewrite forecast_closed by exact Hc. cbn [fst]. unfold shape0 in Hc.
        split; [intros _; lia|reflexivity].
      * rewrite forecast_open by lia. cbn [fst]. unfold shape0 in Ho.
        split; [discriminate|]. lia.
    + intros Hr. destruct (weather s) as [|w df] eqn:Hw.
      * rewrite table_weather_no_rows by assumption. cbn [fst].
        split; [intros _|reflexivity]. now rewrite <- Hy.
      * rewrite table_weather_run by (rewrite Hw; discriminate). cbn [fst].
        split; [discriminate|]. intros E. rewrite E in Hlen. discriminate.
Qed.

Lemma X10_fetch_then_serve_witness :
  let d := {| Fetch.Time := 1640995200; Fetch.TimeEnd := 1641254400;
              Fetch.Interval := 86400;
              Fetch.ValuesAsNumpy := [of_int 20; nan; of_int 18] |} in
  let s := {| input := {| temp_range := (0, 15); temp := Some 5; units := fahrenheit;
                          forecast_years := 1; forecast_trend := flat |};
              weather := Fetch.frame_of [1640995200; 1641081600; 1641168000]
                           [of_int 20; nan; of_int 18];
              fitted := [] |} in
  fst (forecast (fun _ _ => []) s) = Raise SilentException
  /\ Fetch.get_weather
       {| Fetch.Time := 1640995200; Fetch.TimeEnd := 1641254400;
          Fetch.Interval := 86400; Fetch.ValuesAsNumpy := [of_int 20; nan] |}
     = inl Fetch.ValueError.
Proof.
  intros d s. split.
  - apply (proj1 (proj2 (X10_fetch_then_serve (fun _ _ => []) d s ltac:(cbn; lia))
                    eq_refl)).
    cbn. lia.
  - apply (proj1 (X10_fetch_then_serve (fun _ _ => [])
                    {| Fetch.Time := 1640995200; Fetch.TimeEnd := 1641254400;
                       Fetch.Interval := 86400;
                       Fetch.ValuesAsNumpy := [of_int 20; nan] |} s ltac:(cbn; lia))).
    vm_compute. discriminate.
Defined.

(** ** The city lookup *)

Lemma column_where (df : ProcessData.frame) (mask : list bool) (name : string) :
  ProcessData.column (ProcessData.where_ df mask) name
  = match ProcessData.column df name with
    | inr c => inr (ProcessData.keep mask c)
    | inl e => inl e
    end.
Proof.
  induction df as [|[n c] df IH]; [reflexivity|].
  cbn [ProcessData.where_ map ProcessData.column fst snd].
  destruct (String.eqb n name); [reflexivity|exact IH].
Qed.

Lemma column_error (df : ProcessData.frame) (name : string) (e : ProcessData.error) :
  ProcessData.column df name = inl e -> e = ProcessData.KeyError name.
Proof.
  induction df as [|[n c] df IH]; cbn [ProcessData.column].
  - congruence.
  - destruct (String.eqb n name); [discriminate|exact IH].
Qed.

Lemma nonempty_string (s : string) :
  (0 <? String.length s)%nat = true <-> s <> ""%string.
Proof.
  destruct s; cbn; split; congruence.
Qed.

Lemma eq_str_true (s : string) (c : ProcessData.cell) :
  Cities.eq_str s c = true <-> c = ProcessData.Str s.
Proof.
  destruct c; cbn; try (split; congruence).
  rewrite String.eqb_eq. split; congruence.
Qed.

(** The head of a masked column is the entry at the first true position. *)
Lemma keep_head {A} (mask : list bool) (l : list A) (a : A) :
  (exists t, ProcessData.keep mask l = a :: t)
  <-> exists i, nth_error mask i = Some true
                /\ (forall j, (j < i)%nat -> nth_error mask j = Some false)
                /\ nth_error l i = Some a.
Proof.
  revert l. induction mask as [|b mask IH]; intros l.
  - cbn [ProcessData.keep]. split.
    + intros (t & H). discriminate.
    + intros (i & H & _). destruct i; discriminate.
  - destruct l as [|a0 l].
    + cbn [ProcessData.keep]. split.
      * intros (t & H). discriminate.
      * intros (i & _ & _ & H). destruct i; discriminate.
    + cbn [ProcessData.keep]. destruct b.
      * split.
        -- intros (t & H). inversion H; subst. exists 0%nat.
           repeat split; try reflexivity. intros j Hj. lia.
        -- intros (i & Hi & Hfirst & Ha). destruct i as [|i].
           ++ cbn in Ha. inversion Ha. eexists. reflexivity.
           ++ specialize (Hfirst 0%nat ltac:(lia)). discriminate.
      * rewrite IH. split.
        -- intros (i & Hi & Hfirst & Ha). exists (S i). repeat split; try assumption.
           intros [|j] Hj; [reflexivity|]. apply Hfirst. lia.
        -- intros (i & Hi & Hfirst & Ha). destruct i as [|i]; [discriminate|].
           exists i. repeat split; try assumption.
           intros j Hj. apply (Hfirst (S j)). lia.
Qed.

Lemma keep_nil {A} (mask : list bool) (l : list A) :
  List.length l = List.length mask ->
  (ProcessData.keep mask l = [] <-> forall b, In b mask -> b = false).
Proof.
  revert l. induction mask as [|b mask IH]; intros [|a l] Hl; try discriminate.
  - cbn. split; [intros _ b []|reflexivity].
  - cbn [ProcessData.keep List.length] in *. destruct b.
    + split; [discriminate|]. intros H. specialize (H true (or_introl eq_refl)).
      discriminate.
    + rewrite IH by lia. split.
      * intros H b [<-|Hb]; [reflexivity|now apply H].
      * intros H b Hb. apply H. now right.
Qed.

Lemma keep_all_false {A} (mask : list bool) (l : list A) :
  (forall b, In b mask -> b = false) -> ProcessData.keep mask l = [].
Proof.
  revert l. induction mask as [|b mask IH]; intros l H; [reflexivity|].
  destruct l as [|a l]; [reflexivity|]. cbn [ProcessData.keep].
  rewrite (H b (or_introl eq_refl)). apply IH. intros b' Hb. apply H. now right.
Qed.

(** The lookup on a frame with the three columns, for a city that is not
    the empty text. *)
Lemma lookup_run (city_data : ProcessData.frame) (city : string)
    (names lats lngs : list ProcessData.cell) :
  ProcessData.column city_data "city_state" = inr names ->
  ProcessData.column city_data "lat" = inr lats ->
  ProcessData.column city_data "lng" = inr lngs ->
  city <> ""%string ->
  Cities.get_input_lat_lon city_data city
  = match ProcessData.keep (map (Cities.eq_str city) names) lats,
          ProcessData.keep (map (Cities.eq_str city) names) lngs with
    | [], _ => inl Cities.IndexError
    | _ :: _, [] => inl Cities.IndexError
    | lat :: _, lng :: _ => inr (lat, lng)
    end.
Proof.
  intros Hn Hlat Hlng Hc. unfold Cities.get_input_lat_lon, Cities.col.
  rewrite (proj2 (nonempty_string city) Hc), Hn. cbn [Cities.bind].
  rewrite !column_where, Hlat, Hlng. cbn [Cities.bind].
  destruct (ProcessData.keep _ lats) as [|lat t]; [reflexivity|].
  cbn [Cities.iloc0 Cities.bind].
  destruct (ProcessData.keep _ lngs) as [|lng t']; reflexivity.
Qed.

Lemma mask_true (city : string) (names : list ProcessData.cell) (i : nat) :
  nth_error (map (Cities.eq_str city) names) i = Some true
  <-> nth_error names i = Some (ProcessData.Str city).
Proof.
  rewrite nth_error_map. destruct (nth_error names i) as [c|]; cbn [option_map].
  - split; intros H.
    + inversion H as [E]. apply eq_str_true in E. now subst.
    + inversion H. f_equal. now apply eq_str_true.
  - split; discriminate.
Qed.

Lemma mask_first (city : string) (names : list ProcessData.cell) (i : nat) :
  (i <= List.length names)%nat ->
  (forall j, (j < i)%nat -> nth_error (map (Cities.eq_str city) names) j = Some false)
  <-> (forall j, (j < i)%nat -> nth_error names j <> Some (ProcessData.Str city)).
Proof.
  intros Hi. split; intros H j Hj.
  - intros E. apply mask_true in E. rewrite (H j Hj) in E. discriminate.
  - rewrite nth_error_map.
    destruct (nth_error names j) as [c|] eqn:Ec; cbn [option_map].
    + f_equal. destruct (Cities.eq_str city c) eqn:Eb; [|reflexivity].
      apply eq_str_true in Eb. subst c. now elim (H j Hj).
    + apply nth_error_None in Ec. lia.
Qed.

(** X11: on a table with the columns [city_state], [lat] and [lng], the
    lookup returns a pair exactly when the chosen city is not the empty text
    and is listed, and the pair is the latitude and longitude standing in the
    first row that lists it: a later row of the same name is never reached. *)
Theorem X11_city_lookup_first_match
    (city_data : ProcessData.frame) (city : string)
    (names lats lngs : list ProcessData.cell) (lat lng : ProcessData.cell) :
  ProcessData.column city_data "city_state" = inr names ->
  ProcessData.column city_data "lat" = inr lats ->
  ProcessData.column city_data "lng" = inr lngs ->
  (Cities.get_input_lat_lon city_data city = inr (lat, lng)
   <-> city <> ""%string
       /\ exists i, nth_error names i = Some (ProcessData.Str city)
                    /\ (forall j, (j < i)%nat ->
                          nth_error names j <> Some (ProcessData.Str city))
                    /\ nth_error lats i = Some lat
                    /\ nth_error lngs i = Some lng).
Proof.
  intros Hn Hlat Hlng. split.
  - intros Hrun.
    assert (Hc : city <> ""%string).
    { apply nonempty_string. unfold Cities.get_input_lat_lon in Hrun.
      destruct (0 <? String.length city)%nat; [reflexivity|discriminate]. }
    split; [exact Hc|].
    rewrite (lookup_run _ _ _ _ _ Hn Hlat Hlng Hc) in Hrun.
    destruct (ProcessData.keep _ lats) as [|a t] eqn:Ea; [discriminate|].
    destruct (ProcessData.keep _ lngs) as [|b t'] eqn:Eb; [discriminate|].
    inversion Hrun; subst a b.
    destruct (proj1 (keep_head _ _ _) (ex_intro _ t Ea)) as (i & Hi & Hfi & Hai).
    destruct (proj1 (keep_head _ _ _) (ex_intro _ t' Eb)) as (k & Hk & Hfk & Hbk).
    assert (k = i).
    { destruct (Nat.lt_trichotomy k i) as [Hlt|[E|Hlt]]; [|exact E|].
      - rewrite (Hfi k Hlt) in Hk. discriminate.
      - rewrite (Hfk i Hlt) in Hi. discriminate. }
    subst k. exists i. split; [now apply mask_true|].
    split; [|split; assumption].
    apply mask_first; [|exact Hfi].
    apply Nat.lt_le_incl. rewrite <- (length_map (Cities.eq_str city)).
    apply nth_error_Some. congruence.
  - intros (Hc & i & Hi & Hfirst & Hai & Hbi).
    rewrite (lookup_run _ _ _ _ _ Hn Hlat Hlng Hc).
    assert (Hlen : (i <= List.length names)%nat).
    { apply Nat.lt_le_incl, nth_error_Some. congruence. }
    apply mask_true in Hi.
    pose proof (proj2 (mask_first city names i Hlen) Hfirst) as Hmask.
    clear Hfirst. rename Hmask into Hfirst.
    destruct (proj2 (keep_head _ lats lat) (ex_intro _ i (conj Hi (conj Hfirst Hai))))
      as (t & ->).
    destruct (proj2 (keep_head _ lngs lng) (ex_intro _ i (conj Hi (conj Hfirst Hbi))))
      as (t' & ->).
    reflexivity.
Qed.

Lemma X11_city_lookup_first_match_witness :
  Cities.get_input_lat_lon
    [ ("city_state", [ProcessData.Str "Troy, Ohio"; ProcessData.Str "Urbana, Illinois";
                      ProcessData.Str "Urbana, Illinois"]);
      ("lat", [ProcessData.Int 40; ProcessData.Int 41; ProcessData.Int 42]);
      ("lng", [ProcessData.Int (-84); ProcessData.Int (-88);
               ProcessData.Int (-89)]) ]%string
    "Urbana, Illinois"
  = inr (ProcessData.Int 41, ProcessData.Int (-88)).
Proof.
  apply (proj2 (X11_city_lookup_first_match
                  [ ("city_state", [ProcessData.Str "Troy, Ohio";
                                    ProcessData.Str "Urbana, Illinois";
                                    ProcessData.Str "Urbana, Illinois"]);
                    ("lat", [ProcessData.Int 40; ProcessData.Int 41;
                             ProcessData.Int 42]);
                    ("lng", [ProcessData.Int (-84); ProcessData.Int (-88);
                             ProcessData.Int (-89)]) ]%string
                  "Urbana, Illinois"
                  [ProcessData.Str "Troy, Ohio"; ProcessData.Str "Urbana, Illinois";
                   ProcessData.Str "Urbana, Illinois"]
                  [ProcessData.Int 40; ProcessData.Int 41; ProcessData.Int 42]
                  [ProcessData.Int (-84); ProcessData.Int (-88); ProcessData.Int (-89)]
                  (ProcessData.Int 41) (ProcessData.Int (-88))
                  eq_refl eq_refl eq_refl)).
  split; [discriminate|]. exists 1%nat. repeat split.
  intros [|j] Hj; [discriminate|lia].
Defined.

(** X12: how the lookup fails.  The empty choice cancels it silently,
    whatever the table; for another choice a missing [city_state] or [lat]
    column is a [KeyError] of that name, and a city no row lists is an
    [IndexError] from [.iloc[0]], before the [lng] column is looked at.  On a
    table whose three columns have one length these are the only failures:
    every listed city that is not the empty text resolves. *)
Theorem X12_city_lookup_failures (city_data : ProcessData.frame) (city : string) :
  (city = ""%string ->
   Cities.get_input_lat_lon city_data city = inl Cities.SilentException)
  /\ (city <> ""%string ->
      forall e, ProcessData.column city_data "city_state" = inl e ->
      Cities.get_input_lat_lon city_data city
      = inl (Cities.FrameError (ProcessData.KeyError "city_state")))
  /\ (city <> ""%string ->
      forall names e,
      ProcessData.column city_data "city_state" = inr names ->
      ProcessData.column city_data "lat" = inl e ->
      Cities.get_input_lat_lon city_data city
      = inl (Cities.FrameError (ProcessData.KeyError "lat")))
  /\ (city <> ""%string ->
      forall names lats,
      ProcessData.column city_data "city_state" = inr names ->
      ProcessData.column city_data "lat" = inr lats ->
      ~ In (ProcessData.Str city) names ->
      Cities.get_input_lat_lon city_data city = inl Cities.IndexError)
  /\ (forall names lats lngs,
      ProcessData.column city_data "city_state" = inr names ->
      ProcessData.column city_data "lat" = inr lats ->
      ProcessData.column city_data "lng" = inr lngs ->
      List.length lats = List.length names ->
      List.length lngs = List.length names ->
      forall e, Cities.get_input_lat_lon city_data city = inl e ->
      (e = Cities.SilentException /\ city = ""%string)
      \/ (e = Cities.IndexError /\ city <> ""%string
          /\ ~ In (ProcessData.Str city) names)).
Proof.
  assert (Hunlisted : forall names, ~ In (ProcessData.Str city) names ->
            forall b, In b (map (Cities.eq_str city) names) -> b = false).
  { intros names Hno b Hb. apply in_map_iff in Hb. destruct Hb as (c & <- & Hc).
    destruct (Cities.eq_str city c) eqn:E; [|reflexivity].
    apply eq_str_true in E. subst c. contradiction. }
  split; [|split; [|split; [|split]]].
  - intros ->. reflexivity.
  - intros Hc e He. unfold Cities.get_input_lat_lon, Cities.col.
    rewrite (proj2 (nonempty_string city) Hc), He, (column_error _ _ _ He). reflexivity.
  - intros Hc names e Hn He. unfold Cities.get_input_lat_lon, Cities.col.
    rewrite (proj2 (nonempty_string city) Hc), Hn. cbn [Cities.bind].
    rewrite column_where, He, (column_error _ _ _ He). reflexivity.
  - intros Hc names lats Hn Hlat Hno. unfold Cities.get_input_lat_lon, Cities.col.
    rewrite (proj2 (nonempty_string city) Hc), Hn. cbn [Cities.bind].
    rewrite column_where, Hlat. cbn [Cities.bind].
    rewrite keep_all_false by (now apply Hunlisted). reflexivity.
  - intros names lats lngs Hn Hlat Hlng Hl1 Hl2 e Hrun.
    destruct (string_dec city "") as [->|Hc].
    + left. cbn in Hrun. split; congruence.
    + right. rewrite (lookup_run _ _ _ _ _ Hn Hlat Hlng Hc) in Hrun.
      assert (Hm1 : List.length lats = List.length (map (Cities.eq_str city) names))
        by now rewrite length_map.
      assert (Hm2 : List.length lngs = List.length (map (Cities.eq_str city) names))
        by now rewrite length_map.
      destruct (ProcessData.keep _ lats) as [|a t] eqn:Ea.
      * split; [congruence|]. split; [exact Hc|]. intros Hin.
        pose proof (proj1 (keep_nil _ _ Hm1) Ea) as Hall.
        specialize (Hall true). rewrite in_map_iff in Hall.
        assert (true = false); [|discriminate].
        apply Hall. exists (ProcessData.Str city). split; [|exact Hin].
        now apply eq_str_true.
      * destruct (ProcessData.keep _ lngs) as [|b t'] eqn:Eb; [|discriminate].
        pose proof (proj1 (keep_nil _ _ Hm2) Eb) as Hall.
        rewrite (keep_all_false _ lats Hall) in Ea. discriminate.
Qed.

Lemma X12_city_lookup_failures_witness :
  Cities.get_input_lat_lon
    [ ("city_state", [ProcessData.Str "Troy, Ohio"]);
      ("lat", [ProcessData.Int 40]) ]%string "Urbana, Illinois"
  = inl Cities.IndexError
  /\ Cities.get_input_lat_lon [ ("city_state", [ProcessData.Str "Troy, Ohio"]) ]%string
       "Troy, Ohio"
     = inl (Cities.FrameError (ProcessData.KeyError "lat")).
Proof.
  split.
  - apply (proj1 (proj2 (proj2 (proj2
             (X12_city_lookup_failures
                [ ("city_state", [ProcessData.Str "Troy, Ohio"]);
                  ("lat", [ProcessData.Int 40]) ]%string "Urbana, Illinois"))))
             ltac:(discriminate) [ProcessData.Str "Troy, Ohio"] [ProcessData.Int 40]
             eq_refl eq_refl).
    intros [H|[]]. discriminate.
  - apply (proj1 (proj2 (proj2
             (X12_city_lookup_failures
                [ ("city_state", [ProcessData.Str "Troy, Ohio"]) ]%string "Troy, Ohio")))
             ltac:(discriminate) [ProcessData.Str "Troy, Ohio"]
             (ProcessData.KeyError "lat") eq_refl eq_refl).
Defined.

(** ** The script on any frame, and the lookup on what it writes *)

(** With its six columns found, the script is three steps on the columns. *)
Lemma process_data_columns (df : ProcessData.frame)
    (city county state pop lat lng : list ProcessData.cell) :
  ProcessData.column df "city" = inr city ->
  ProcessData.column df "county_name" = inr county ->
  ProcessData.column df "state_name" = inr state ->
  ProcessData.column df "population" = inr pop ->
  ProcessData.column df "lat" = inr lat ->
  ProcessData.column df "lng" = inr lng ->
  ProcessData.process_data df
  = ProcessData.rbind (ProcessData.traverse (ProcessData.gt_int 9999) pop) (fun mask =>
    ProcessData.rbind (ProcessData.add_scalar (ProcessData.keep mask city) ", ") (fun c =>
    ProcessData.rbind (ProcessData.add_columns c (ProcessData.keep mask state))
      (fun names =>
         inr [ ("city_state"%string, names);
               ("lat"%string, ProcessData.keep mask lat);
               ("lng"%string, ProcessData.keep mask lng) ]))).
Proof.
  intros Hcity Hcounty Hstate Hpop Hlat Hlng.
  unfold ProcessData.process_data, ProcessData.select.
  cbn [ProcessData.traverse]. rewrite Hcity, Hcounty, Hstate, Hpop, Hlat, Hlng.
  cbn [ProcessData.rbind ProcessData.column String.eqb Ascii.eqb Bool.eqb].
  destruct (ProcessData.traverse (ProcessData.gt_int 9999) pop) as [e|mask];
    [reflexivity|].
  cbn [ProcessData.rbind ProcessData.where_ map fst snd ProcessData.column
       String.eqb Ascii.eqb Bool.eqb].
  destruct (ProcessData.add_scalar (ProcessData.keep mask city) ", ") as [e|c];
    [reflexivity|].
  cbn [ProcessData.rbind].
  destruct (ProcessData.add_columns c (ProcessData.keep mask state)) as [e|names];
    [reflexivity|].
  cbn [ProcessData.rbind ProcessData.assign ProcessData.traverse ProcessData.column
       String.eqb Ascii.eqb Bool.eqb].
  reflexivity.
Qed.

Lemma select_found (df : ProcessData.frame) (names : list string) (out : ProcessData.frame) :
  ProcessData.select df names = inr out ->
  forall n, In n names -> exists c, ProcessData.column df n = inr c.
Proof.
  unfold ProcessData.select. revert out.
  induction names as [|k names IH]; intros out H n Hn; [contradiction|].
  cbn [ProcessData.traverse] in H.
  destruct (ProcessData.column df k) as [e|c] eqn:Ek; [discriminate|].
  cbn [ProcessData.rbind] in H.
  destruct (ProcessData.traverse _ names) as [e|rest] eqn:Erest; [discriminate|].
  destruct Hn as [<-|Hn]; [now exists c|]. now apply (IH rest).
Qed.

Lemma select_missing (df : ProcessData.frame) (names : list string) (e : ProcessData.error) :
  ProcessData.select df names = inl e ->
  exists n, In n names /\ ProcessData.column df n = inl e.
Proof.
  unfold ProcessData.select.
  induction names as [|k names IH]; intros H; [discriminate|].
  cbn [ProcessData.traverse] in H.
  destruct (ProcessData.column df k) as [e'|c] eqn:Ek.
  - cbn in H. inversion H; subst. exists k. split; [now left|exact Ek].
  - cbn [ProcessData.rbind] in H.
    destruct (ProcessData.traverse _ names) as [e'|rest] eqn:Erest; [|discriminate].
    cbn in H. inversion H; subst. destruct (IH eq_refl) as (n & Hn & En).
    exists n. split; [now right|exact En].
Qed.

Lemma traverse_Forall2 {A B} (f : A -> ProcessData.res B) (l : list A) (l' : list B) :
  ProcessData.traverse f l = inr l' -> Forall2 (fun a b => f a = inr b) l l'.
Proof.
  revert l'. induction l as [|a l IH]; intros l' H; cbn [ProcessData.traverse] in H.
  - inversion H. constructor.
  - destruct (f a) as [e|b] eqn:Ea; [discriminate|]. cbn [ProcessData.rbind] in H.
    destruct (ProcessData.traverse f l) as [e|bs]; [discriminate|].
    inversion H. constructor; [exact Ea|now apply IH].
Qed.

Lemma traverse_error {A B} (f : A -> ProcessData.res B) (l : list A) (e : ProcessData.error) :
  ProcessData.traverse f l = inl e -> exists a, In a l /\ f a = inl e.
Proof.
  induction l as [|a l IH]; intros H; cbn [ProcessData.traverse] in H; [discriminate|].
  destruct (f a) as [e'|b] eqn:Ea.
  - cbn in H. inversion H; subst. exists a. split; [now left|exact Ea].
  - cbn [ProcessData.rbind] in H.
    destruct (ProcessData.traverse f l) as [e'|bs]; [|discriminate].
    cbn in H. inversion H; subst. destruct (IH eq_refl) as (x & Hx & Ex).
    exists x. split; [now right|exact Ex].
Qed.

Lemma traverse_In_error {A B} (f : A -> ProcessData.res B) (l : list A) (a : A)
    (e : ProcessData.error) :
  In a l -> f a = inl e -> exists e', ProcessData.traverse f l = inl e'.
Proof.
  induction l as [|x l IH]; intros Hin Ha; [contradiction|].
  cbn [ProcessData.traverse]. destruct (f x) as [e'|b] eqn:Ex; [now exists e'|].
  cbn [ProcessData.rbind]. destruct Hin as [->|Hin]; [congruence|].
  destruct (IH Hin Ha) as (e' & ->). now exists e'.
Qed.

Lemma add_error (a b : ProcessData.cell) (e : ProcessData.error) :
  ProcessData.add a b = inl e -> e = ProcessData.TypeError.
Proof. destruct a, b; cbn; congruence. Qed.

Lemma add_columns_error (c1 c2 : list ProcessData.cell) (e : ProcessData.error) :
  ProcessData.add_columns c1 c2 = inl e -> e = ProcessData.TypeError.
Proof.
  revert c2. induction c1 as [|a c1 IH]; intros [|b c2] H;
    cbn [ProcessData.add_columns] in H; try discriminate.
  destruct (ProcessData.add a b) as [e'|x] eqn:Ex.
  - cbn in H. inversion H; subst. exact (add_error _ _ _ Ex).
  - cbn [ProcessData.rbind] in H.
    destruct (ProcessData.add_columns c1 c2) as [e'|xs] eqn:Exs; [|discriminate].
    cbn in H. inversion H; subst. exact (IH _ Exs).
Qed.

Lemma add_columns_length (c1 c2 out : list ProcessData.cell) :
  ProcessData.add_columns c1 c2 = inr out ->
  List.length out = Nat.min (List.length c1) (List.length c2).
Proof.
  revert c2 out. induction c1 as [|a c1 IH]; intros [|b c2] out H;
    cbn [ProcessData.add_columns] in H; try (inversion H; reflexivity).
  destruct (ProcessData.add a b) as [e'|x]; [discriminate|].
  cbn [ProcessData.rbind] in H.
  destruct (ProcessData.add_columns c1 c2) as [e'|xs] eqn:Exs; [discriminate|].
  inversion H. cbn [List.length Nat.min]. f_equal. now apply IH.
Qed.

Lemma keep_length {A} (mask : list bool) (l : list A) :
  List.length l = List.length mask -> List.length (ProcessData.keep mask l) = kept mask.
Proof.
  unfold kept. revert l. induction mask as [|b mask IH]; intros [|a l] H;
    try discriminate; [reflexivity|].
  cbn [ProcessData.keep filter List.length] in *.
  destruct b; cbn [List.length]; rewrite IH by lia; reflexivity.
Qed.

Lemma kept_le (mask : list bool) : (kept mask <= List.length mask)%nat.
Proof. unfold kept. apply filter_length_le. Qed.

Lemma gt_int_error (k : Z) (c : ProcessData.cell) (e : ProcessData.error) :
  ProcessData.gt_int k c = inl e -> e = ProcessData.TypeError.
Proof. destruct c; cbn; congruence. Qed.

(** The script's output on the cities [cs]. *)
Lemma process_data_cities
    (df : ProcessData.frame) (cs : list raw_city) (county : list ProcessData.cell) :
  ProcessData.column df "city" = inr (map (fun c => ProcessData.Str (rc_city c)) cs) ->
  ProcessData.column df "county_name" = inr county ->
  ProcessData.column df "state_name"
  = inr (map (fun c => ProcessData.Str (rc_state c)) cs) ->
  ProcessData.column df "population"
  = inr (map (fun c => ProcessData.Int (rc_population c)) cs) ->
  ProcessData.column df "lat" = inr (map (fun c => ProcessData.Flt (rc_lat c)) cs) ->
  ProcessData.column df "lng" = inr (map (fun c => ProcessData.Flt (rc_lng c)) cs) ->
  ProcessData.process_data df
  = inr [ ("city_state"%string,
           map (fun c => ProcessData.Str (city_state c)) (filter big_enough cs));
          ("lat"%string,
           map (fun c => ProcessData.Flt (rc_lat c)) (filter big_enough cs));
          ("lng"%string,
           map (fun c => ProcessData.Flt (rc_lng c)) (filter big_enough cs)) ].
Proof.
  intros Hcity Hcounty Hstate Hpop Hlat Hlng.
  rewrite (process_data_columns df _ _ _ _ _ _ Hcity Hcounty Hstate Hpop Hlat Hlng).
  rewrite traverse_gt_int. cbn [ProcessData.rbind]. rewrite !keep_filter.
  rewrite add_scalar_names. cbn [ProcessData.rbind].
  rewrite add_columns_names. reflexivity.
Qed.

Lemma hd_filter_find {A} (p q : A -> bool) (l : list A) :
  hd_error (filter q (filter p l)) = find (fun a => p a && q a) l.
Proof.
  induction l as [|a l IH]; [reflexivity|]. cbn [filter find].
  destruct (p a); cbn [filter andb]; [destruct (q a); [reflexivity|exact IH]|exact IH].
Qed.

Lemma city_state_nonempty (c : raw_city) : city_state c <> ""%string.
Proof. unfold city_state. destruct (rc_city c); cbn; discriminate. Qed.

(** X13: the script and the lookup together.  On a raw frame holding the
    cities [cs], the script's output is a table the application can use: its
    [city_state] column, which becomes the list of choices, names exactly the
    cities above 9999 inhabitants, and the lookup of any non-empty text
    returns the coordinates of the first city of [cs] above 9999 inhabitants
    with that [city_state], an [IndexError] when there is none.  So every
    choice offered resolves, to a city of that name; of two cities with one
    name and state only the first can be reached. *)
Theorem X13_script_then_lookup
    (df : ProcessData.frame) (cs : list raw_city) (county : list ProcessData.cell) :
  ProcessData.column df "city" = inr (map (fun c => ProcessData.Str (rc_city c)) cs) ->
  ProcessData.column df "county_name" = inr county ->
  ProcessData.column df "state_name"
  = inr (map (fun c => ProcessData.Str (rc_state c)) cs) ->
  ProcessData.column df "population"
  = inr (map (fun c => ProcessData.Int (rc_population c)) cs) ->
  ProcessData.column df "lat" = inr (map (fun c => ProcessData.Flt (rc_lat c)) cs) ->
  ProcessData.column df "lng" = inr (map (fun c => ProcessData.Flt (rc_lng c)) cs) ->
  exists city_data,
    ProcessData.process_data df = inr city_data
    /\ Cities.city_list city_data
       = inr (map (fun c => ProcessData.Str (city_state c)) (filter big_enough cs))
    /\ (forall name, name <> ""%string ->
        Cities.get_input_lat_lon city_data name
        = match find (fun c => big_enough c && String.eqb (city_state c) name) cs with
          | Some c => inr (ProcessData.Flt (rc_lat c), ProcessData.Flt (rc_lng c))
          | None => inl Cities.IndexError
          end)
    /\ (forall c, In c cs -> 9999 < rc_population c ->
        exists c', In c' cs /\ 9999 < rc_population c'
                   /\ city_state c' = city_state c
                   /\ Cities.get_input_lat_lon city_data (city_state c)
                      = inr (ProcessData.Flt (rc_lat c'), ProcessData.Flt (rc_lng c'))).
Proof.
  intros Hcity Hcounty Hstate Hpop Hlat Hlng.
  eexists. split; [exact (process_data_cities df cs county Hcity Hcounty Hstate Hpop
                            Hlat Hlng)|].
  split; [reflexivity|].
  assert (Hlookup : forall name, name <> ""%string ->
    Cities.get_input_lat_lon
      [ ("city_state"%string,
         map (fun c => ProcessData.Str (city_state c)) (filter big_enough cs));
        ("lat"%string, map (fun c => ProcessData.Flt (rc_lat c)) (filter big_enough cs));
        ("lng"%string, map (fun c => ProcessData.Flt (rc_lng c)) (filter big_enough cs)) ]
      name
    = match find (fun c => big_enough c && String.eqb (city_state c) name) cs with
      | Some c => inr (ProcessData.Flt (rc_lat c), ProcessData.Flt (rc_lng c))
      | None => inl Cities.IndexError
      end).
  { intros name Hname.
    match goal with
    | |- Cities.get_input_lat_lon ?out _ = _ =>
        rewrite (lookup_run out name
                   (map (fun c => ProcessData.Str (city_state c)) (filter big_enough cs))
                   (map (fun c => ProcessData.Flt (rc_lat c)) (filter big_enough cs))
                   (map (fun c => ProcessData.Flt (rc_lng c)) (filter big_enough cs))
                   eq_refl eq_refl eq_refl Hname)
    end.
    rewrite map_map. cbn [Cities.eq_str].
    rewrite !(keep_filter (fun c => String.eqb (city_state c) name)).
    rewrite <- (hd_filter_find big_enough (fun c => String.eqb (city_state c) name) cs).
    destruct (filter _ (filter big_enough cs)) as [|c t]; reflexivity. }
  split; [exact Hlookup|].
  intros c Hc Hbig. rewrite (Hlookup _ (city_state_nonempty c)).
  destruct (find _ cs) as [c'|] eqn:Ef.
  - apply find_some in Ef. destruct Ef as (Hin & Hp).
    apply andb_prop in Hp. destruct Hp as (Hb & He).
    exists c'. split; [exact Hin|]. split; [now apply Z.ltb_lt|].
    split; [now apply String.eqb_eq|reflexivity].
  - pose proof (find_none _ _ Ef c Hc) as Hp. cbn beta in Hp.
    unfold big_enough in Hp. rewrite (proj2 (Z.ltb_lt _ _) Hbig), String.eqb_refl in Hp.
    discriminate.
Qed.

Lemma X13_script_then_lookup_witness :
  let lat1 := div (of_int 401106) (of_int 10000) in
  let lng1 := div (of_int (-882073)) (of_int 10000) in
  let lat2 := div (of_int 385) (of_int 10) in
  let lng2 := div (of_int (-901)) (of_int 10) in
  let df :=
    [ ("city", [ProcessData.Str "Troy"; ProcessData.Str "Tolono"; ProcessData.Str "Troy"]);
      ("state_name", [ProcessData.Str "Illinois"; ProcessData.Str "Illinois";
                      ProcessData.Str "Illinois"]);
      ("county_name", [ProcessData.Str "Madison"; ProcessData.Missing;
                       ProcessData.Str "Will"]);
      ("lat", [ProcessData.Flt lat1; ProcessData.Flt lat1; ProcessData.Flt lat2]);
      ("lng", [ProcessData.Flt lng1; ProcessData.Flt lng1; ProcessData.Flt lng2]);
      ("population", [ProcessData.Int 38336; ProcessData.Int 9999;
                      ProcessData.Int 10000]) ]%string in
  exists city_data,
    ProcessData.process_data df = inr city_data
    /\ Cities.get_input_lat_lon city_data "Troy, Illinois"
       = inr (ProcessData.Flt lat1, ProcessData.Flt lng1)
    /\ Cities.get_input_lat_lon city_data "Tolono, Illinois" = inl Cities.IndexError.
Proof.
  intros lat1 lng1 lat2 lng2 df.
  destruct (X13_script_then_lookup df
       [ {| rc_city := "Troy"; rc_county := "Madison"; rc_state := "Illinois";
            rc_population := 38336; rc_lat := lat1; rc_lng := lng1 |};
         {| rc_city := "Tolono"; rc_county := ""; rc_state := "Illinois";
            rc_population := 9999; rc_lat := lat1; rc_lng := lng1 |};
         {| rc_city := "Troy"; rc_county := "Will"; rc_state := "Illinois";
            rc_population := 10000; rc_lat := lat2; rc_lng := lng2 |} ]
       [ProcessData.Str "Madison"; ProcessData.Missing; ProcessData.Str "Will"]
       eq_refl eq_refl eq_refl eq_refl eq_refl eq_refl)
    as (city_data & Hrun & _ & Hlookup & _).
  exists city_data. split; [exact Hrun|]. split.
  - rewrite (Hlookup "Troy, Illinois"%string) by discriminate. reflexivity.
  - rewrite (Hlookup "Tolono, Illinois"%string) by discriminate. reflexivity.
Defined.

(** X14: the script's result, a table or an error, depends on five columns
    only.  The [county_name] column has to exist, but neither its content nor
    any other column nor the order of the columns changes what is written. *)
Theorem X14_script_reads_five_columns (df df' : ProcessData.frame) :
  (forall n, In n six -> exists c, ProcessData.column df n = inr c) ->
  (forall n, In n six -> exists c, ProcessData.column df' n = inr c) ->
  (forall n, In n ["city"; "state_name"; "population"; "lat"; "lng"]%string ->
             ProcessData.column df n = ProcessData.column df' n) ->
  ProcessData.process_data df = ProcessData.process_data df'.
Proof.
  intros H H' Hsame. unfold six in H, H'.
  destruct (H "city"%string) as (city & Hcity); [cbn; tauto|].
  destruct (H "county_name"%string) as (county & Hcounty); [cbn; tauto|].
  destruct (H "state_name"%string) as (state & Hstate); [cbn; tauto|].
  destruct (H "population"%string) as (pop & Hpop); [cbn; tauto|].
  destruct (H "lat"%string) as (lat & Hlat); [cbn; tauto|].
  destruct (H "lng"%string) as (lng & Hlng); [cbn; tauto|].
  destruct (H' "county_name"%string) as (county' & Hcounty'); [cbn; tauto|].
  rewrite (process_data_columns df _ _ _ _ _ _ Hcity Hcounty Hstate Hpop Hlat Hlng).
  rewrite Hsame in Hcity, Hstate, Hpop, Hlat, Hlng by (cbn; tauto).
  rewrite (process_data_columns df' _ _ _ _ _ _ Hcity Hcounty' Hstate Hpop Hlat Hlng).
  reflexivity.
Qed.

Lemma X14_script_reads_five_columns_witness :
  ProcessData.process_data
    [ ("city", [ProcessData.Str "Troy"]); ("county_name", [ProcessData.Str "Madison"]);
      ("state_name", [ProcessData.Str "Illinois"]); ("population", [ProcessData.Int 10000]);
      ("lat", [ProcessData.Int 38]); ("lng", [ProcessData.Int (-90)]) ]%string
  = ProcessData.process_data
      [ ("zips", [ProcessData.Int 62294]); ("lng", [ProcessData.Int (-90)]);
        ("lat", [ProcessData.Int 38]); ("population", [ProcessData.Int 10000]);
        ("county_name", [ProcessData.Missing]); ("state_name", [ProcessData.Str "Illinois"]);
        ("city", [ProcessData.Str "Troy"]) ]%string.
Proof.
  apply X14_script_reads_five_columns.
  - intros n Hn. cbn in Hn.
    repeat (destruct Hn as [<-|Hn]; [eexists; reflexivity|]). contradiction.
  - intros n Hn. cbn in Hn.
    repeat (destruct Hn as [<-|Hn]; [eexists; reflexivity|]). contradiction.
  - intros n Hn. cbn in Hn.
    repeat (destruct Hn as [<-|Hn]; [reflexivity|]). contradiction.
Defined.

(** X15: whatever the values, when the script writes a table from a raw
    frame whose columns have one length, the table has exactly the columns
    [city_state], [lat], [lng], all of one length, at most the number of raw
    rows; [lat] and [lng] are the raw columns restricted to one and the same
    selection of rows, in the raw order, and a row is selected exactly when
    its population compares above 9999. *)
Theorem X15_script_output_shape (df out : ProcessData.frame)
    (city county state pop lat lng : list ProcessData.cell) :
  ProcessData.column df "city" = inr city ->
  ProcessData.column df "county_name" = inr county ->
  ProcessData.column df "state_name" = inr state ->
  ProcessData.column df "population" = inr pop ->
  ProcessData.column df "lat" = inr lat ->
  ProcessData.column df "lng" = inr lng ->
  List.length city = List.length pop -> List.length state = List.length pop ->
  List.length lat = List.length pop -> List.length lng = List.length pop ->
  ProcessData.process_data df = inr out ->
  exists mask names,
    Forall2 (fun p b => ProcessData.gt_int 9999 p = inr b) pop mask
    /\ out = [ ("city_state"%string, names);
               ("lat"%string, ProcessData.keep mask lat);
               ("lng"%string, ProcessData.keep mask lng) ]
    /\ List.length names = kept mask
    /\ List.length (ProcessData.keep mask lat) = kept mask
    /\ List.length (ProcessData.keep mask lng) = kept mask
    /\ (kept mask <= List.length pop)%nat.
Proof.
  intros Hcity Hcounty Hstate Hpop Hlat Hlng Lcity Lstate Llat Llng Hrun.
  rewrite (process_data_columns df _ _ _ _ _ _ Hcity Hcounty Hstate Hpop Hlat Hlng)
    in Hrun.
  destruct (ProcessData.traverse (ProcessData.gt_int 9999) pop) as [e|mask] eqn:Emask;
    [discriminate|].
  cbn [ProcessData.rbind] in Hrun.
  destruct (ProcessData.add_scalar (ProcessData.keep mask city) ", ") as [e|c] eqn:Ec;
    [discriminate|].
  cbn [ProcessData.rbind] in Hrun.
  destruct (ProcessData.add_columns c (ProcessData.keep mask state)) as [e|names]
    eqn:Enames; [discriminate|].
  cbn [ProcessData.rbind] in Hrun. inversion Hrun; subst out. clear Hrun.
  pose proof (traverse_Forall2 _ _ _ Emask) as Hmask.
  pose proof (Forall2_length Hmask) as Lmask.
  pose proof (Forall2_length (traverse_Forall2 _ _ _ Ec)) as Lc.
  pose proof (add_columns_length _ _ _ Enames) as Ln.
  rewrite <- Lc, !keep_length in Ln by lia.
  exists mask, names. split; [exact Hmask|]. split; [reflexivity|].
  split; [lia|]. rewrite !keep_length by lia.
  split; [reflexivity|]. split; [reflexivity|]. rewrite Lmask. apply kept_le.
Qed.

Lemma X15_script_output_shape_witness :
  exists mask names,
    ProcessData.process_data
      [ ("city", [ProcessData.Str "Troy"; ProcessData.Missing]);
        ("county_name", [ProcessData.Str "Madison"; ProcessData.Str "Will"]);
        ("state_name", [ProcessData.Str "Illinois"; ProcessData.Str "Illinois"]);
        ("population", [ProcessData.Int 9000; ProcessData.Int 10000]);
        ("lat", [ProcessData.Int 38; ProcessData.Int 41]);
        ("lng", [ProcessData.Int (-90); ProcessData.Int (-88)]) ]%string
    = inr [ ("city_state"%string, names);
            ("lat"%string, ProcessData.keep mask [ProcessData.Int 38; ProcessData.Int 41]);
            ("lng"%string,
             ProcessData.keep mask [ProcessData.Int (-90); ProcessData.Int (-88)]) ]
    /\ List.length names = kept mask.
Proof.
  destruct (X15_script_output_shape
              [ ("city", [ProcessData.Str "Troy"; ProcessData.Missing]);
                ("county_name", [ProcessData.Str "Madison"; ProcessData.Str "Will"]);
                ("state_name", [ProcessData.Str "Illinois"; ProcessData.Str "Illinois"]);
                ("population", [ProcessData.Int 9000; ProcessData.Int 10000]);
                ("lat", [ProcessData.Int 38; ProcessData.Int 41]);
                ("lng", [ProcessData.Int (-90); ProcessData.Int (-88)]) ]%string
              [ ("city_state", [ProcessData.Missing]); ("lat", [ProcessData.Int 41]);
                ("lng", [ProcessData.Int (-88)]) ]%string
              [ProcessData.Str "Troy"; ProcessData.Missing]
              [ProcessData.Str "Madison"; ProcessData.Str "Will"]
              [ProcessData.Str "Illinois"; ProcessData.Str "Illinois"]
              [ProcessData.Int 9000; ProcessData.Int 10000]
              [ProcessData.Int 38; ProcessData.Int 41]
              [ProcessData.Int (-90); ProcessData.Int (-88)]
              eq_refl eq_refl eq_refl eq_refl eq_refl eq_refl
              eq_refl eq_refl eq_refl eq_refl eq_refl)
    as (mask & names & _ & Hout & Hlen & _).
  exists mask, names. split; [|exact Hlen].
  rewrite <- Hout. reflexivity.
Defined.

(** X16: the script stops with a [KeyError] exactly when one of the six
    columns it names is missing from the raw frame, and then before anything
    else is looked at; with all six present, text in the [population] column
    stops it with a [TypeError] at the comparison.  In neither case is a
    table written. *)
Theorem X16_script_failures (df : ProcessData.frame) :
  ((exists n, In n six /\ forall c, ProcessData.column df n <> inr c)
   <-> exists k, ProcessData.process_data df = inl (ProcessData.KeyError k))
  /\ ((forall n, In n six -> exists c, ProcessData.column df n = inr c) ->
      forall pop s, ProcessData.column df "population" = inr pop ->
                    In (ProcessData.Str s) pop ->
                    ProcessData.process_data df = inl ProcessData.TypeError).
Proof.
  assert (Hform : forall city county state pop lat lng,
            ProcessData.column df "city" = inr city ->
            ProcessData.column df "county_name" = inr county ->
            ProcessData.column df "state_name" = inr state ->
            ProcessData.column df "population" = inr pop ->
            ProcessData.column df "lat" = inr lat ->
            ProcessData.column df "lng" = inr lng ->
            forall e, ProcessData.process_data df = inl e -> e = ProcessData.TypeError).
  { intros city county state pop lat lng Hcity Hcounty Hstate Hpop Hlat Hlng e Hrun.
    rewrite (process_data_columns df _ _ _ _ _ _ Hcity Hcounty Hstate Hpop Hlat Hlng)
      in Hrun.
    destruct (ProcessData.traverse (ProcessData.gt_int 9999) pop) as [e1|mask] eqn:E1.
    - cbn in Hrun. inversion Hrun; subst e1.
      destruct (traverse_error _ _ _ E1) as (a & _ & Ha). exact (gt_int_error _ _ _ Ha).
    - cbn [ProcessData.rbind] in Hrun.
      destruct (ProcessData.add_scalar _ _) as [e2|c] eqn:E2.
      + cbn in Hrun. inversion Hrun; subst e2.
        destruct (traverse_error _ _ _ E2) as (a & _ & Ha). exact (add_error _ _ _ Ha).
      + cbn [ProcessData.rbind] in Hrun.
        destruct (ProcessData.add_columns _ _) as [e3|names] eqn:E3; [|discriminate].
        cbn in Hrun. inversion Hrun; subst e3. exact (add_columns_error _ _ _ E3). }
  assert (Hall : (forall n, In n six -> exists c, ProcessData.column df n = inr c) ->
            forall e, ProcessData.process_data df = inl e -> e = ProcessData.TypeError).
  { intros H. unfold six in H.
    destruct (H "city"%string) as (city & Hcity); [cbn; tauto|].
    destruct (H "county_name"%string) as (county & Hcounty); [cbn; tauto|].
    destruct (H "state_name"%string) as (state & Hstate); [cbn; tauto|].
    destruct (H "population"%string) as (pop & Hpop); [cbn; tauto|].
    destruct (H "lat"%string) as (lat & Hlat); [cbn; tauto|].
    destruct (H "lng"%string) as (lng & Hlng); [cbn; tauto|].
    exact (Hform _ _ _ _ _ _ Hcity Hcounty Hstate Hpop Hlat Hlng). }
  split; [split|].
  - intros (n & Hn & Hmiss).
    destruct (ProcessData.select df six) as [e|sel] eqn:Esel.
    + destruct (select_missing _ _ _ Esel) as (k & _ & Ek).
      exists k. unfold ProcessData.process_data. fold six. rewrite Esel.
      rewrite (column_error _ _ _ Ek). reflexivity.
    + destruct (select_found _ _ _ Esel n Hn) as (c & Hc). now elim (Hmiss c).
  - intros (k & Hrun).
    destruct (ProcessData.select df six) as [e|sel] eqn:Esel.
    + destruct (select_missing _ _ _ Esel) as (n & Hn & En).
      exists n. split; [exact Hn|]. intros c. rewrite En. discriminate.
    + pose proof (Hall (select_found _ _ _ Esel) _ Hrun). discriminate.
  - intros H pop s Hpop Hs.
    destruct (ProcessData.process_data df) as [e|out] eqn:Hrun.
    + f_equal. exact (Hall H e eq_refl).
    + exfalso. unfold six in H.
      destruct (H "city"%string) as (city & Hcity); [cbn; tauto|].
      destruct (H "county_name"%string) as (county & Hcounty); [cbn; tauto|].
      destruct (H "state_name"%string) as (state & Hstate); [cbn; tauto|].
      destruct (H "lat"%string) as (lat & Hlat); [cbn; tauto|].
      destruct (H "lng"%string) as (lng & Hlng); [cbn; tauto|].
      rewrite (process_data_columns df _ _ _ _ _ _ Hcity Hcounty Hstate Hpop Hlat Hlng)
        in Hrun.
      destruct (traverse_In_error (ProcessData.gt_int 9999) pop (ProcessData.Str s)
                  ProcessData.TypeError Hs eq_refl) as (e & He).
      rewrite He in Hrun. discriminate.
Qed.

Lemma X16_script_failures_witness :
  (exists k, ProcessData.process_data
               [ ("city", [ProcessData.Str "Troy"]);
                 ("population", [ProcessData.Str "many"]) ]%string
             = inl (ProcessData.KeyError k))
  /\ ProcessData.process_data
       [ ("city", [ProcessData.Str "Troy"]); ("county_name", [ProcessData.Str "Madison"]);
         ("state_name", [ProcessData.Str "Illinois"]);
         ("population", [ProcessData.Str "many"]);
         ("lat", [ProcessData.Int 38]); ("lng", [ProcessData.Int (-90)]) ]%string
     = inl ProcessData.TypeError.
Proof.
  split.
  - apply (proj1 (proj1 (X16_script_failures
                           [ ("city", [ProcessData.Str "Troy"]);
                             ("population", [ProcessData.Str "many"]) ]%string))).
    exists "lat"%string. split; [cbn; tauto|]. intros c. discriminate.
  - apply (proj2 (X16_script_failures
             [ ("city", [ProcessData.Str "Troy"]);
               ("county_name", [ProcessData.Str "Madison"]);
               ("state_name", [ProcessData.Str "Illinois"]);
               ("population", [ProcessData.Str "many"]);
               ("lat", [ProcessData.Int 38]); ("lng", [ProcessData.Int (-90)]) ]%string)
             ) with (pop := [ProcessData.Str "many"]) (s := "many"%string).
    + intros n Hn. cbn in Hn.
      repeat (destruct Hn as [<-|Hn]; [eexists; reflexivity|]). contradiction.
    + reflexivity.
    + now left.
Defined.

(** ** A population column read as decimal numbers *)

Lemma SFleb_not_ltb (a b : spec_float) :
  SFleb a b = true -> SFltb b a = false.
Proof.
  unfold SFltb, SFleb, SFcompare.
  destruct a as [sa|sa| |sa ma ea], b as [sb|sb| |sb mb eb];
    try discriminate; try reflexivity;
    repeat match goal with s : bool |- _ => destruct s end;
    try discriminate; try reflexivity;
    change (Pos.compare_cont Eq) with Pos.compare;
    repeat match goal with
           | |- context [Z.compare ?u ?v] => destruct (Z.compare_spec u v)
           | |- context [Pos.compare ?u ?v] => destruct (Pos.compare_spec u v)
           end; cbn; try discriminate; try reflexivity; intros; lia.
Qed.

(** Against 9999 the comparison of doubles agrees with the comparison of the
    integers they were read from, however large. *)
Lemma gt_9999_float (n : Z) : ltb (of_int 9999) (of_int n) = (9999 <? n).
Proof.
  unfold ltb. destruct (Z.ltb_spec 9999 n) as [H|H].
  - apply (SFltb_leb_trans _ (of_int 10000)); [vm_compute; reflexivity|].
    apply of_int_mono. lia.
  - apply SFleb_not_ltb, of_int_mono. exact H.
Qed.

Lemma traverse_gt_float (pop : raw_city -> option Z) (cs : list raw_city) :
  ProcessData.traverse (ProcessData.gt_int 9999)
    (map (fun c => float_population (pop c)) cs)
  = inr (map (fun c => above_9999 (pop c)) cs).
Proof.
  induction cs as [|c cs IH]; [reflexivity|].
  cbn [map ProcessData.traverse]. rewrite IH.
  destruct (pop c) as [n|]; cbn [float_population ProcessData.gt_int ProcessData.rbind
                                 above_9999]; [rewrite gt_9999_float|]; reflexivity.
Qed.

(** X17: when blank fields make pandas read the [population] column as
    decimal numbers, the script still keeps exactly the cities whose
    population is known and above 9999: a blank population drops the row, and
    the comparison of doubles decides every integer population, however
    large, as the integers would. *)
Theorem X17_blank_populations
    (df : ProcessData.frame) (cs : list raw_city) (pop : raw_city -> option Z)
    (county : list ProcessData.cell) :
  ProcessData.column df "city" = inr (map (fun c => ProcessData.Str (rc_city c)) cs) ->
  ProcessData.column df "county_name" = inr county ->
  ProcessData.column df "state_name"
  = inr (map (fun c => ProcessData.Str (rc_state c)) cs) ->
  ProcessData.column df "population" = inr (map (fun c => float_population (pop c)) cs) ->
  ProcessData.column df "lat" = inr (map (fun c => ProcessData.Flt (rc_lat c)) cs) ->
  ProcessData.column df "lng" = inr (map (fun c => ProcessData.Flt (rc_lng c)) cs) ->
  ProcessData.process_data df
  = inr [ ("city_state"%string,
           map (fun c => ProcessData.Str (city_state c))
               (filter (fun c => above_9999 (pop c)) cs));
          ("lat"%string,
           map (fun c => ProcessData.Flt (rc_lat c))
               (filter (fun c => above_9999 (pop c)) cs));
          ("lng"%string,
           map (fun c => ProcessData.Flt (rc_lng c))
               (filter (fun c => above_9999 (pop c)) cs)) ].
Proof.
  intros Hcity Hcounty Hstate Hpop Hlat Hlng.
  rewrite (process_data_columns df _ _ _ _ _ _ Hcity Hcounty Hstate Hpop Hlat Hlng).
  rewrite traverse_gt_float. cbn [ProcessData.rbind]. rewrite !keep_filter.
  rewrite add_scalar_names. cbn [ProcessData.rbind].
  rewrite add_columns_names. reflexivity.
Qed.

Lemma X17_blank_populations_witness :
  ProcessData.process_data
    [ ("city", [ProcessData.Str "Troy"; ProcessData.Str "Tolono"; ProcessData.Str "Urbana"]);
      ("county_name", [ProcessData.Missing; ProcessData.Missing; ProcessData.Missing]);
      ("state_name", [ProcessData.Str "Illinois"; ProcessData.Str "Illinois";
                      ProcessData.Str "Illinois"]);
      ("population", [ProcessData.Flt (of_int 10000); ProcessData.Missing;
                      ProcessData.Flt (of_int 9999)]);
      ("lat", [ProcessData.Flt (of_int 38); ProcessData.Flt (of_int 39);
               ProcessData.Flt (of_int 40)]);
      ("lng", [ProcessData.Flt (of_int (-90)); ProcessData.Flt (of_int (-88));
               ProcessData.Flt (of_int (-88))]) ]%string
  = inr [ ("city_state", [ProcessData.Str "Troy, Illinois"]);
          ("lat", [ProcessData.Flt (of_int 38)]);
          ("lng", [ProcessData.Flt (of_int (-90))]) ]%string.
Proof.
  exact (X17_blank_populations
    [ ("city", [ProcessData.Str "Troy"; ProcessData.Str "Tolono"; ProcessData.Str "Urbana"]);
      ("county_name", [ProcessData.Missing; ProcessData.Missing; ProcessData.Missing]);
      ("state_name", [ProcessData.Str "Illinois"; ProcessData.Str "Illinois";
                      ProcessData.Str "Illinois"]);
      ("population", [ProcessData.Flt (of_int 10000); ProcessData.Missing;
                      ProcessData.Flt (of_int 9999)]);
      ("lat", [ProcessData.Flt (of_int 38); ProcessData.Flt (of_int 39);
               ProcessData.Flt (of_int 40)]);
      ("lng", [ProcessData.Flt (of_int (-90)); ProcessData.Flt (of_int (-88));
               ProcessData.Flt (of_int (-88))]) ]%string
    [ {| rc_city := "Troy"; rc_county := ""; rc_state := "Illinois";
         rc_population := 10000; rc_lat := of_int 38; rc_lng := of_int (-90) |};
      {| rc_city := "Tolono"; rc_county := ""; rc_state := "Illinois";
         rc_population := 0; rc_lat := of_int 39; rc_lng := of_int (-88) |};
      {| rc_city := "Urbana"; rc_county := ""; rc_state := "Illinois";
         rc_population := 9999; rc_lat := of_int 40; rc_lng := of_int (-88) |} ]
    (fun c => if rc_population c =? 0 then None else Some (rc_population c))
    [ProcessData.Missing; ProcessData.Missing; ProcessData.Missing]
    eq_refl eq_refl eq_refl eq_refl eq_refl eq_refl).
Defined.

(** ** The sliders after a change of units *)

(** X18: when the two effects have reset the sliders for the session's
    units, each new value lies within its new bounds and the table range is
    in order and contains the plot temperature.  So on a series with at least
    one day the weather table is returned with a row for the plot
    temperature, and that row counts exactly the days [plot_weather] marks as
    cold. *)
Theorem X18_units_reset (s : session) :
  weather s <> [] ->
  let t := Sliders.update_temp (units (input s)) in
  let r := Sliders.update_temp_range (units (input s)) in
  let s' := {| input := {| temp_range := Sliders.rvalue r;
                           temp := Some (Sliders.value t);
                           units := units (input s);
                           forecast_years := forecast_years (input s);
                           forecast_trend := forecast_trend (input s) |};
               weather := weather s; fitted := fitted s |} in
  Sliders.smin t <= Sliders.value t <= Sliders.smax t
  /\ Sliders.rmin r <= fst (Sliders.rvalue r)
  /\ fst (Sliders.rvalue r) <= Sliders.value t <= snd (Sliders.rvalue r)
  /\ snd (Sliders.rvalue r) <= Sliders.rmax r
  /\ exists rows row,
       fst (table_weather s') = Ok rows /\ In row rows
       /\ Temp row = Sliders.value t
       /\ Days_Below row
          = Z.of_nat (List.length (cold_rows (weather (snd (plot_weather s'))))).
Proof.
  intros Hne t r s'.
  assert (Hb : Sliders.smin t <= Sliders.value t <= Sliders.smax t
               /\ Sliders.rmin r <= fst (Sliders.rvalue r)
               /\ fst (Sliders.rvalue r) <= Sliders.value t <= snd (Sliders.rvalue r)
               /\ snd (Sliders.rvalue r) <= Sliders.rmax r).
  { subst t r. destruct (units (input s)); cbn; lia. }
  destruct Hb as (H1 & H2 & H3 & H4).
  split; [exact H1|]. split; [exact H2|]. split; [exact H3|]. split; [exact H4|].
  destruct (table_weather_has_row s' (Sliders.value t) Hne H3) as (rows & Hrun & Hin).
  exists rows, (shown_row y (weather s') (Sliders.value t)).
  split; [exact Hrun|]. split; [exact Hin|]. split; [reflexivity|].
  rewrite (plot_weather_run s' (Sliders.value t) eq_refl). cbn [snd weather].
  rewrite cold_rows_count. reflexivity.
Qed.

Lemma X18_units_reset_witness :
  let s := {| input := {| temp_range := (40, 30); temp := None; units := celsius;
                          forecast_years := 1; forecast_trend := flat |};
              weather := [ {| ds := {| seconds := 0; tz_aware := true |};
                              y := of_int (-18); cold := None |};
                           {| ds := {| seconds := 86400; tz_aware := true |};
                              y := of_int (-15); cold := None |} ];
              fitted := [] |} in
  Sliders.smin (Sliders.update_temp (units (input s)))
  <= Sliders.value (Sliders.update_temp (units (input s)))
  <= Sliders.smax (Sliders.update_temp (units (input s))).
Proof.
  intros s.
  exact (proj1 (X18_units_reset s ltac:(discriminate))).
Defined.
